(** * Madlen AI Chat: model catalog, conversation store, chat pipeline

  A shallow embedding of the orchestration logic of the chat application:
  - [ModelCatalog]: the free-model filter and the vision check of the
    backend (the Python fragments quoted in [backend/README.md] and the
    top-level README);
  - [ConversationStore], [ChatOrchestrator]: the session and message tables
    (schema of [backend/README.md]) with the operations of the design;
  - [Js], [ApiService]: the client's API boundary ([services/api.ts]);
  - [Types], [ChatInput], [App]: the client's data model and the two
    handlers that create and send a user turn.

  Definitions come first, the properties follow. *)

From stdpp Require Import base option list strings pretty gmap sorting.
From Stdlib Require Import ZArith Lia Ascii.

(** ** Outcomes *)

(** The failure kinds of the design (section 7). *)
Inductive Error :=
| NotFound
| UpstreamUnavailable
| UpstreamRejected
| ValidationFailure.

(** An operation either returns a value or fails with an error. *)
Inductive result (E A : Type) :=
| Ok (a : A)
| Err (e : E).

Arguments Ok {E A} a.
Arguments Err {E A} e.

#[global] Instance result_ret {E} : MRet (result E) := λ A a, Ok a.

#[global] Instance result_bind {E} : MBind (result E) := λ A B k r,
  match r with
  | Ok a => k a
  | Err e => Err e
  end.

#[global] Instance result_fmap {E} : FMap (result E) := λ A B f r,
  match r with
  | Ok a => Ok (f a)
  | Err e => Err e
  end.

(** ** Model catalog (Python) *)

Module ModelCatalog.

(** An upstream model entry is a JSON object read as a Python dict.  The
    catalog reads [pricing], [architecture] and [input_modalities] through
    [dict.get] with a default, so each of them may be absent.  Prices are
    strings, as the gateway serves them and as [AIModel] declares them
    ([pricing?: { prompt: string; completion: string }]). *)
Record Pricing := {
  prompt : option string;
  completion : option string;
}.

Record Architecture := {
  input_modalities : option (list string);
}.

Record Model := {
  id : string;
  name : string;
  description : option string;
  context_length : option Z;
  pricing : option Pricing;
  architecture : option Architecture;
}.

(** [d.get(key, dflt)] on an attribute that may be absent. *)
Definition get {A} (field : option A) (dflt : A) : A :=
  match field with
  | Some v => v
  | None => dflt
  end.

(** The empty dict [{}] at the two places where it is a default. *)
Definition no_pricing : Pricing := {| prompt := None; completion := None |}.
Definition no_architecture : Architecture := {| input_modalities := None |}.

(** [backend/README.md], "Free Model Filtering":
<<
    free_models = [
        model for model in all_models
        if model.get("pricing", {}).get("prompt", "1") == "0"
        and model.get("pricing", {}).get("completion", "1") == "0"
    ]
>> *)
Definition free_models (all_models : list Model) : list Model :=
  filter (λ model,
            get (prompt (get (pricing model) no_pricing)) "1" = "0"
            ∧ get (completion (get (pricing model) no_pricing)) "1" = "0")
         all_models.

(** The top-level README quotes the filter in a shortened form that reads
    the prompt price only:
<<
    free_models = [
        model for model in all_models
        if model.get("pricing", {}).get("prompt", "1") == "0"
    ]
>> *)
Definition free_models_overview (all_models : list Model) : list Model :=
  filter (λ model, get (prompt (get (pricing model) no_pricing)) "1" = "0")
         all_models.

(** [d[key]] on an attribute that may be absent. *)
Inductive PyError := KeyError (key : string).

Definition item {A} (field : option A) (key : string) : result PyError A :=
  match field with
  | Some v => Ok v
  | None => Err (KeyError key)
  end.

(** The project overview quotes it shorter still, with subscripts:
<<
    free_models = [m for m in all_models
                   if m["pricing"]["prompt"] == "0"]
>> *)
Fixpoint free_models_indexed (all_models : list Model)
    : result PyError (list Model) :=
  match all_models with
  | [] => Ok []
  | m :: all_models =>
      p ← item (pricing m) "pricing";
      price ← item (prompt p) "prompt";
      rest ← free_models_indexed all_models;
      mret (if decide (price = "0") then m :: rest else rest)
  end.

(** [backend/README.md], "Vision Support Detection":
<<
    def _check_vision_support(self, model: Dict[str, Any]) -> bool:
        arch = model.get("architecture", {})
        input_modalities = arch.get("input_modalities", [])
        return "image" in input_modalities
>> *)
Definition _check_vision_support (model : Model) : bool :=
  let arch := get (architecture model) no_architecture in
  let input_modalities := get (input_modalities arch) [] in
  bool_decide ("image" ∈ input_modalities).

(** The glyph and the space of the f-string [f"📷 {model['name']}"]. *)
Definition vision_marker : string := "📷 ".

(** Top-level README, "Vision Support Detection":
<<
    supports_vision = "image" in model.get("architecture", {}).get("input_modalities", [])
    if supports_vision:
        model["name"] = f"📷 {model['name']}"
>>
    The assignment updates the entry; the flag is returned with it. *)
Definition mark_vision (model : Model) : Model * bool :=
  let supports_vision := _check_vision_support model in
  if supports_vision
  then ({| id := id model;
           name := vision_marker +:+ name model;
           description := description model;
           context_length := context_length model;
           pricing := pricing model;
           architecture := architecture model |}, supports_vision)
  else (model, supports_vision).

(** The descriptor served by [GET /models/]; its attributes are those of
    the response shown in [backend/README.md]. *)
Module Descriptor.
Record t := {
  id : string;
  name : string;
  description : option string;
  context_length : option Z;
  supports_vision : bool;
  pricing : option Pricing;
}.
End Descriptor.

(** Modelled from the spec: the shaping of an entry into a descriptor, part
    of the catalog request of [services/openrouter.py], which is absent from
    the sources (only the fragments above are quoted).  Section 3 lists the
    descriptor's attributes, section 4.1 (step 3) sets the flag and the
    name. *)
Definition describe (model : Model) : Descriptor.t :=
  let '(model, supports_vision) := mark_vision model in
  {| Descriptor.id := id model;
     Descriptor.name := name model;
     Descriptor.description := description model;
     Descriptor.context_length := context_length model;
     Descriptor.supports_vision := supports_vision;
     Descriptor.pricing := pricing model |}.

(** Modelled from the spec: the catalog request of
    [services/openrouter.py], absent from the sources.  Section 4.1:
    "Retain only entries whose prompt price and completion price both equal
    a literal zero-cost marker", then mark each retained entry; "Order of
    results follows upstream order". *)
Definition listFreeModels (all_models : list Model) : list Descriptor.t :=
  describe <$> free_models all_models.

(** The project overview quotes the check with subscripts:
<<
    supports_vision = "image" in model["architecture"]["input_modalities"]
    if supports_vision:
        model["name"] = f"📷 {model['name']}"
>> *)
Definition mark_vision_indexed (model : Model) : result PyError (Model * bool) :=
  arch ← item (architecture model) "architecture";
  modalities ← item (input_modalities arch) "input_modalities";
  let supports_vision := bool_decide ("image" ∈ modalities) in
  mret (if supports_vision
        then ({| id := id model;
                 name := vision_marker +:+ name model;
                 description := description model;
                 context_length := context_length model;
                 pricing := pricing model;
                 architecture := architecture model |}, supports_vision)
        else (model, supports_vision)).

(** ["image"] is among the input modalities the entry declares. *)
Definition declares_image (model : Model) : Prop :=
  ∃ arch modalities,
    architecture model = Some arch
    ∧ input_modalities arch = Some modalities
    ∧ "image" ∈ modalities.

(** What follows [prefix] in a string that starts with it. *)
Fixpoint after_prefix (prefix s : string) : option string :=
  match prefix, s with
  | EmptyString, _ => Some s
  | String a prefix, String b s =>
      if decide (a = b) then after_prefix prefix s else None
  | String _ _, EmptyString => None
  end.

(** The name starts with the marker. *)
Definition marked (name : string) : bool :=
  match after_prefix vision_marker name with
  | Some _ => true
  | None => false
  end.

(** The name starts with the marker exactly once: the marker is there, and
    what follows it does not start with the marker again. *)
Definition marked_once (name : string) : bool :=
  match after_prefix vision_marker name with
  | Some rest => negb (marked rest)
  | None => false
  end.

(** Both declared prices equal the zero-cost marker. *)
Definition zero_priced (model : Model) : Prop :=
  ∃ p, pricing model = Some p ∧ prompt p = Some "0" ∧ completion p = Some "0".

End ModelCatalog.


(** ** Conversation store (SQLAlchemy tables) *)

Module ConversationStore.

(** Identifiers are opaque and generated at creation; the store draws them
    from a counter.  Timestamps are readings of the caller's clock. *)
Abbreviation Id := nat (only parsing).
Abbreviation Time := Z (only parsing).
Definition Metadata := list (string * string).

(** [backend/README.md], "Database Schema": the columns of [chat_sessions].
    The [messages] relationship is not a column: it is the set of rows of
    [messages] that refer to the session. *)
Module ChatSession.
Record t := {
  id : Id;
  title : string;
  model_id : string;
  created_at : Time;
  updated_at : Time;
}.
End ChatSession.

(** The columns of [messages]; [image_url] and [extra_metadata] are
    nullable, [content] is not. *)
Module Message.
Record t := {
  id : Id;
  session_id : Id;
  role : string;
  content : string;
  image_url : option string;
  timestamp : Time;
  extra_metadata : option Metadata;
}.
End Message.

(** The two tables.  [chat_sessions] is keyed by its primary key; the rows
    of [messages] are kept in insertion order. *)
Record Store := {
  chat_sessions : gmap Id ChatSession.t;
  messages : list Message.t;
  next_id : Id;
}.

Definition empty : Store :=
  {| chat_sessions := ∅; messages := []; next_id := 0 |}.

(** The label of a session created without a title ([title || 'New Chat']
    in [services/api.ts]). *)
Definition default_title : string := "New Chat".

(** The rows of [messages] that refer to session [sid], in table order. *)
Definition messages_of (sid : Id) (st : Store) : list Message.t :=
  filter (λ m, Message.session_id m = sid) (messages st).

(** Ordering by creation time, the table order being kept among equal
    timestamps (section 3: "totally ordered by creation time"). *)
Fixpoint insert_by_time (m : Message.t) (ms : list Message.t) : list Message.t :=
  match ms with
  | [] => [m]
  | m' :: ms' =>
      if decide (Message.timestamp m' < Message.timestamp m)%Z
      then m' :: insert_by_time m ms'
      else m :: ms
  end.

Definition sort_by_time (ms : list Message.t) : list Message.t :=
  foldr insert_by_time [] ms.

(** Modelled from the spec: session creation of
    [services/session_service.py], absent from the sources.  Section 4.2:
    "createSession(modelId, title?) -> Session: generates identity, stores
    title (default generated label if absent), stamps both timestamps equal
    at creation". *)
Definition createSession (now : Time) (modelId : string)
    (title : option string) (st : Store) : Store * ChatSession.t :=
  let s := {| ChatSession.id := next_id st;
              ChatSession.title := default default_title title;
              ChatSession.model_id := modelId;
              ChatSession.created_at := now;
              ChatSession.updated_at := now |} in
  ({| chat_sessions := <[next_id st := s]> (chat_sessions st);
      messages := messages st;
      next_id := S (next_id st) |}, s).

(** Modelled from the spec: session retrieval of
    [services/session_service.py], absent from the sources.  Section 4.2:
    "getSession(id) -> Session with ordered Messages or fails with
    NotFound".  The session owns "an ordered collection of Messages"
    (section 3) and the relationship of the schema declares no ordering of
    its own, so the messages come in table order. *)
Definition getSession (id : Id) (st : Store)
    : result Error (ChatSession.t * list Message.t) :=
  match chat_sessions st !! id with
  | Some s => Ok (s, messages_of id st)
  | None => Err NotFound
  end.

(** [a] was updated no earlier than [b]. *)
Definition updated_after (a b : ChatSession.t) : Prop :=
  (ChatSession.updated_at b ≤ ChatSession.updated_at a)%Z.

#[global] Instance updated_after_dec : RelDecision updated_after.
Proof. intros a b. unfold updated_after. apply _. Defined.

(** Modelled from the spec: session listing of
    [services/session_service.py], absent from the sources.  Section 4.2:
    "listSessions() -> sequence<Session> (summary form; message bodies need
    not be eagerly loaded, only a count), ordered by most-recently-updated
    first". *)
Definition listSessions (st : Store) : list (ChatSession.t * nat) :=
  (λ s, (s, length (messages_of (ChatSession.id s) st)))
    <$> merge_sort updated_after (snd <$> map_to_list (chat_sessions st)).

(** Modelled from the spec: the title update of
    [services/session_service.py], absent from the sources.  Section 4.2:
    "updateTitle(id, newTitle) -> Session, fails with NotFound if absent;
    bumps last-updated timestamp". *)
Definition updateTitle (now : Time) (id : Id) (newTitle : string)
    (st : Store) : result Error (Store * ChatSession.t) :=
  match chat_sessions st !! id with
  | Some s =>
      let s' := {| ChatSession.id := ChatSession.id s;
                   ChatSession.title := newTitle;
                   ChatSession.model_id := ChatSession.model_id s;
                   ChatSession.created_at := ChatSession.created_at s;
                   ChatSession.updated_at := now |} in
      Ok ({| chat_sessions := <[id := s']> (chat_sessions st);
             messages := messages st;
             next_id := next_id st |}, s')
  | None => Err NotFound
  end.

(** Modelled from the spec: session deletion of
    [services/session_service.py], absent from the sources.  Section 4.2:
    "deleteSession(id) -> void, fails with NotFound if absent; cascades to
    delete all Messages of that session atomically".  The schema declares
    the cascade on both sides ([cascade="all, delete-orphan"] and
    [ondelete="CASCADE"]). *)
Definition deleteSession (id : Id) (st : Store) : result Error Store :=
  match chat_sessions st !! id with
  | Some _ =>
      Ok {| chat_sessions := delete id (chat_sessions st);
            messages := filter (λ m, Message.session_id m ≠ id) (messages st);
            next_id := next_id st |}
  | None => Err NotFound
  end.

(** Modelled from the spec: message creation of
    [services/session_service.py], absent from the sources.  Section 4.2:
    "appendMessage(sessionId, role, content, imageRef?, metadata?) ->
    Message, fails with NotFound if the session does not exist; bumps the
    session's last-updated timestamp as part of the same logical
    operation". *)
Definition appendMessage (now : Time) (sessionId : Id) (role content : string)
    (imageRef : option string) (metadata : option Metadata)
    (st : Store) : result Error (Store * Message.t) :=
  match chat_sessions st !! sessionId with
  | Some s =>
      let m := {| Message.id := next_id st;
                  Message.session_id := sessionId;
                  Message.role := role;
                  Message.content := content;
                  Message.image_url := imageRef;
                  Message.timestamp := now;
                  Message.extra_metadata := metadata |} in
      let s' := {| ChatSession.id := ChatSession.id s;
                   ChatSession.title := ChatSession.title s;
                   ChatSession.model_id := ChatSession.model_id s;
                   ChatSession.created_at := ChatSession.created_at s;
                   ChatSession.updated_at := now |} in
      Ok ({| chat_sessions := <[sessionId := s']> (chat_sessions st);
             messages := messages st ++ [m];
             next_id := S (next_id st) |}, m)
  | None => Err NotFound
  end.

End ConversationStore.


(** ** Chat orchestrator (request pipeline) *)

Module ChatOrchestrator.
Import ConversationStore.

(** Modelled from the spec: the request and response shapes of
    [routes/chat.py] and [services/openrouter.py], absent from the sources.
    The content of a wire message is a plain string or the two-part payload
    of a text part and an image part (section 9, first note). *)
Inductive MessageContent :=
| TextOnly (text : string)
| TextWithImage (text : string) (imageRef : string).

Record WireMessage := {
  role : string;
  content : MessageContent;
}.

(** What the completion capability returns (section 6, [POST /chat/]). *)
Record Usage := {
  prompt_tokens : nat;
  completion_tokens : nat;
  total_tokens : nat;
}.

Record Choice := {
  message_role : string;
  message_content : string;
  finish_reason : string;
}.

Record Completion := {
  id : string;
  model : string;
  choices : list Choice;
  usage : option Usage;
}.

Inductive UpstreamOutcome :=
| Completed (c : Completion)
| Unavailable
| Rejected.

(** The completion capability, passed explicitly: model identifier and
    message sequence in, outcome out. *)
Definition Upstream := string → list WireMessage → UpstreamOutcome.

(** [sendTurn(modelId, priorMessages | sessionId, ...)]: a turn either
    carries its own prior messages or names a session. *)
Inductive TurnContext :=
| PriorMessages (prior : list WireMessage)
| InSession (sessionId : Id).

Record CompletionResult := {
  reply : string;
  model_used : string;
  usage_of : option Usage;
}.

(** Modelled from the spec: the conversion of a stored message in
    [routes/chat.py], absent from the sources.  Section 4.3, step 2: "Prior
    assistant/user messages are always sent as plain text". *)
Definition to_wire (m : Message.t) : WireMessage :=
  {| role := Message.role m; content := TextOnly (Message.content m) |}.

(** Modelled from the spec: the new turn of [routes/chat.py], absent from
    the sources.  Step 2: "If an image is attached, the new turn's content
    becomes a structured two-part payload (text part + image part) rather
    than a plain string; otherwise it remains a plain string". *)
Definition new_turn (newUserContent : string) (newUserImage : option string)
    : WireMessage :=
  {| role := "user";
     content := match newUserImage with
                | Some imageRef => TextWithImage newUserContent imageRef
                | None => TextOnly newUserContent
                end |}.

(** Modelled from the spec: the reading of the upstream outcome in
    [routes/chat.py], absent from the sources.  Step 5 and the edge policy:
    "if the upstream call succeeds but returns zero choices, this is treated
    as UpstreamRejected (not a silent empty success)". *)
Definition respond (outcome : UpstreamOutcome) : result Error CompletionResult :=
  match outcome with
  | Unavailable => Err UpstreamUnavailable
  | Rejected => Err UpstreamRejected
  | Completed c =>
      match choices c with
      | [] => Err UpstreamRejected
      | choice :: _ =>
          Ok {| reply := message_content choice;
                model_used := model c;
                usage_of := usage c |}
      end
  end.

(** Modelled from the spec: the request assembly of [routes/chat.py],
    absent from the sources.  Steps 1 and 2: "if a session identifier is
    supplied, load it (fails with NotFound if absent)" and "all prior
    messages of the resolved session (if any) converted to the upstream wire
    shape, followed by the new user turn". *)
Definition assemble (ctx : TurnContext) (newUserContent : string)
    (newUserImage : option string) (st : Store)
    : result Error (list WireMessage) :=
  let turn := new_turn newUserContent newUserImage in
  match ctx with
  | PriorMessages prior => Ok (prior ++ [turn])
  | InSession sessionId =>
      match getSession sessionId st with
      | Ok (_, history) => Ok ((to_wire <$> history) ++ [turn])
      | Err e => Err e
      end
  end.

(** Modelled from the spec: the chat endpoint of [routes/chat.py], absent
    from the sources; the per-request state machine of section 4.3 (resolve
    session, assemble request, invoke upstream, persist, respond).  "If no
    session was resolved, skip persistence."  The user's turn is appended
    before the upstream outcome is known, so that it "remains persisted"
    when the call fails (edge policy, scenario D); the reply is appended
    once it is obtained.  The store is returned with the outcome because a
    failed turn may have changed it. *)
Definition sendTurn (upstream : Upstream) (t_user t_reply : Time)
    (modelId : string) (ctx : TurnContext)
    (newUserContent : string) (newUserImage : option string)
    (st : Store) : Store * result Error CompletionResult :=
  match assemble ctx newUserContent newUserImage st with
  | Err e => (st, Err e)
  | Ok outgoing =>
      match ctx with
      | PriorMessages _ => (st, respond (upstream modelId outgoing))
      | InSession sessionId =>
          match appendMessage t_user sessionId "user" newUserContent
                              newUserImage None st with
          | Err e => (st, Err e)
          | Ok (st1, _) =>
              match respond (upstream modelId outgoing) with
              | Err e => (st1, Err e)
              | Ok r =>
                  match appendMessage t_reply sessionId "assistant" (reply r)
                                      None None st1 with
                  | Err e => (st1, Err e)
                  | Ok (st2, _) => (st2, Ok r)
                  end
              end
          end
      end
  end.

(** The calls that may change the store.  A call that fails leaves the
    store as it was, except for a turn that fails after its user message
    was appended. *)
Inductive Call :=
| CreateSession (now : Time) (modelId : string) (title : option string)
| UpdateTitle (now : Time) (id : Id) (newTitle : string)
| DeleteSession (id : Id)
| AppendMessage (now : Time) (sessionId : Id) (role content : string)
    (imageRef : option string) (metadata : option Metadata)
| SendTurn (upstream : Upstream) (t_user t_reply : Time) (modelId : string)
    (ctx : TurnContext) (newUserContent : string) (newUserImage : option string).

Definition exec (st : Store) (c : Call) : Store :=
  match c with
  | CreateSession now modelId title => (createSession now modelId title st).1
  | UpdateTitle now id newTitle =>
      match updateTitle now id newTitle st with
      | Ok (st', _) => st'
      | Err _ => st
      end
  | DeleteSession id =>
      match deleteSession id st with
      | Ok st' => st'
      | Err _ => st
      end
  | AppendMessage now sessionId role content imageRef metadata =>
      match appendMessage now sessionId role content imageRef metadata st with
      | Ok (st', _) => st'
      | Err _ => st
      end
  | SendTurn upstream t_user t_reply modelId ctx text image =>
      (sendTurn upstream t_user t_reply modelId ctx text image st).1
  end.

Definition run (calls : list Call) (st : Store) : Store :=
  foldl exec st calls.

(** The states the store can be in: those obtained from the empty store by
    a finite sequence of calls. *)
Definition reachable (st : Store) : Prop :=
  ∃ calls, st = run calls empty.

(** No message refers to a session that does not exist. *)
Definition no_orphans (st : Store) : Prop :=
  ∀ m, m ∈ messages st → is_Some (chat_sessions st !! Message.session_id m).

(** Every session identifier in use was drawn from the counter. *)
Definition ids_drawn (st : Store) : Prop :=
  ∀ k, is_Some (chat_sessions st !! k) → k < next_id st.

(** The calls of the store itself; a turn amounts to appends. *)
Definition primitive (c : Call) : Prop :=
  match c with
  | SendTurn _ _ _ _ _ _ _ => False
  | _ => True
  end.

(** The clock readings a call carries, in the order they were taken. *)
Definition call_times (c : Call) : list Time :=
  match c with
  | CreateSession now _ _ => [now]
  | UpdateTitle now _ _ => [now]
  | DeleteSession _ => []
  | AppendMessage now _ _ _ _ _ => [now]
  | SendTurn _ t_user t_reply _ _ _ _ => [t_user; t_reply]
  end.

(** The clock never went back over a sequence of calls. *)
Definition clock_monotone (calls : list Call) : Prop :=
  StronglySorted Z.le (calls ≫= call_times).

(** Messages in the order of their creation time. *)
Definition chronological (ms : list Message.t) : Prop :=
  StronglySorted (λ m1 m2, (Message.timestamp m1 ≤ Message.timestamp m2)%Z) ms.

(** The arguments of one [appendMessage] call. *)
Record Append := {
  at_time : Time;
  to_session : Id;
  with_role : string;
  with_content : string;
  with_image : option string;
  with_metadata : option Metadata;
}.

Definition append_call (a : Append) : Call :=
  AppendMessage (at_time a) (to_session a) (with_role a) (with_content a)
                (with_image a) (with_metadata a).

(** What a stored message carries besides its identifier. *)
Definition appended (m : Message.t) : Append :=
  {| at_time := Message.timestamp m;
     to_session := Message.session_id m;
     with_role := Message.role m;
     with_content := Message.content m;
     with_image := Message.image_url m;
     with_metadata := Message.extra_metadata m |}.

End ChatOrchestrator.


(** ** JavaScript values at the API boundary *)

Module Js.

(** The values [services/api.ts] handles as [any]: what [JSON.parse] yields
    for a response body, the [undefined] of a missing property, and the
    [Date] objects the transformations build.  Strings are held in their
    UTF-8 encoding; an object is the list of its own properties, the first
    binding of a key being the one in effect; a [Date] is kept as the
    argument it was constructed from. *)
#[warnings="-register-all"] Inductive value :=
| VUndefined
| VNull
| VBool (b : bool)
| VNum (n : Z)
| VStr (s : string)
| VArr (elements : list value)
| VObj (props : list (string * value))
| VDate (arg : value).

(** The only exception these functions can raise. *)
Inductive Exception := TypeError.

Fixpoint own (key : string) (props : list (string * value)) : option value :=
  match props with
  | [] => None
  | (k, v) :: props => if decide (k = key) then Some v else own key props
  end.

(** The value of an object's property, [undefined] when it has none. *)
Definition field (key : string) (props : list (string * value)) : value :=
  default VUndefined (own key props).

(** [v.key] for a data key (none of the keys read below is a property of a
    primitive, of an array or of a [Date]): reading a property of [undefined]
    or [null] throws, a missing property reads as [undefined]. *)
Definition get (v : value) (key : string) : result Exception value :=
  match v with
  | VUndefined | VNull => Err TypeError
  | VObj props => Ok (field key props)
  | _ => Ok VUndefined
  end.

(** The truth value of [v] in a condition. *)
Definition truthy (v : value) : bool :=
  match v with
  | VUndefined | VNull => false
  | VBool b => b
  | VNum n => negb (n =? 0)%Z
  | VStr s => negb (bool_decide (s = EmptyString))
  | VArr _ | VObj _ | VDate _ => true
  end.

(** [v.map(f)]: only an array has a callable [map]. *)
Definition map (f : value → result Exception value) (v : value)
    : result Exception value :=
  match v with
  | VArr elements => VArr <$> mapM f elements
  | _ => Err TypeError
  end.

(** The number of UTF-16 code units of a string held in UTF-8: one per
    leading byte, two for the leading byte of a four-byte sequence. *)
Fixpoint utf16_length (s : string) : Z :=
  match s with
  | EmptyString => 0
  | String c s =>
      let b := Z.of_nat (nat_of_ascii c) in
      ((if decide (b < 128) then 1
        else if decide (b < 192) then 0
        else if decide (b < 240) then 1
        else 2) + utf16_length s)%Z
  end.

(** [v.length]. *)
Definition length (v : value) : result Exception value :=
  match v with
  | VUndefined | VNull => Err TypeError
  | VArr elements => Ok (VNum (Z.of_nat (List.length elements)))
  | VStr s => Ok (VNum (utf16_length s))
  | _ => Ok VUndefined
  end.

(** *** [String.prototype.trim] *)

Definition chars (codes : list nat) : string :=
  foldr (λ c s, String (ascii_of_nat c) s) EmptyString codes.

(** White space and line terminators of ECMAScript, in UTF-8: TAB, LF, VT,
    FF, CR, SP, U+00A0, U+1680, U+2000 to U+200A, U+2028, U+2029, U+202F,
    U+205F, U+3000, U+FEFF. *)
Definition white_space : list string :=
  chars <$> [ [9]; [10]; [11]; [12]; [13]; [32]; [194; 160]; [225; 154; 128];
              [226; 128; 128]; [226; 128; 129]; [226; 128; 130];
              [226; 128; 131]; [226; 128; 132]; [226; 128; 133];
              [226; 128; 134]; [226; 128; 135]; [226; 128; 136];
              [226; 128; 137]; [226; 128; 138]; [226; 128; 168];
              [226; 128; 169]; [226; 128; 175]; [226; 129; 159];
              [227; 128; 128]; [239; 187; 191] ].

(** [Some rest] when [s] is [p] followed by [rest]. *)
Fixpoint strip_prefix (p s : string) : option string :=
  match p, s with
  | EmptyString, _ => Some s
  | String a p, String b s => if decide (a = b) then strip_prefix p s else None
  | String _ _, EmptyString => None
  end.

(** [s] without its first character when that is one of [spaces]. *)
Definition strip_space (spaces : list string) (s : string) : option string :=
  head (omap (λ w, strip_prefix w s) spaces).

Fixpoint strip_spaces (fuel : nat) (spaces : list string) (s : string) : string :=
  match fuel with
  | 0 => s
  | S fuel =>
      match strip_space spaces s with
      | Some rest => strip_spaces fuel spaces rest
      | None => s
      end
  end.

Definition trimStart (s : string) : string :=
  strip_spaces (String.length s) white_space s.

Definition trimEnd (s : string) : string :=
  String.rev (strip_spaces (String.length s) (String.rev <$> white_space)
                           (String.rev s)).

Definition trim (s : string) : string := trimEnd (trimStart s).

End Js.

(** ** The API client ([services/api.ts]) *)

Module ApiService.
Import Js.

(**
<<
    const transformMessage = (msg: any) => ({
      id: msg.id,
      role: msg.role,
      content: msg.content,
      timestamp: new Date(msg.timestamp),
      imageUrl: msg.image_url,
    });
>> *)
Definition transformMessage (msg : value) : result Exception value :=
  id ← get msg "id";
  role ← get msg "role";
  content ← get msg "content";
  timestamp ← get msg "timestamp";
  image_url ← get msg "image_url";
  mret (VObj [ ("id", id);
               ("role", role);
               ("content", content);
               ("timestamp", VDate timestamp);
               ("imageUrl", image_url) ]).

(**
<<
    const transformSession = (session: any): ChatSession => ({
      id: session.id,
      title: session.title,
      modelId: session.model_id,
      messages: session.messages ? session.messages.map(transformMessage) : [],
      createdAt: new Date(session.created_at),
      updatedAt: new Date(session.updated_at),
    });
>> *)
Definition transformSession (session : value) : result Exception value :=
  id ← get session "id";
  title ← get session "title";
  model_id ← get session "model_id";
  messages ← get session "messages";
  messages ← (if truthy messages
              then Js.map transformMessage messages
              else mret (VArr []));
  created_at ← get session "created_at";
  updated_at ← get session "updated_at";
  mret (VObj [ ("id", id);
               ("title", title);
               ("modelId", model_id);
               ("messages", messages);
               ("createdAt", VDate created_at);
               ("updatedAt", VDate updated_at) ]).

(** [getSessions]: [response.data.map(transformSession)]. *)
Definition getSessions (data : value) : result Exception value :=
  Js.map transformSession data.

(** The count the sidebar shows for a session:
    [{session.messages.length} messages]. *)
Definition messageCount (session : value) : result Exception value :=
  messages ← get session "messages";
  Js.length messages.

End ApiService.


(** ** The client's data model ([types/index.ts]) *)

Module Types.

(** [role: 'user' | 'assistant' | 'system']. *)
Inductive Role := user | assistant | system.

(** The string a role is at run time. *)
Definition role_string (r : Role) : string :=
  match r with
  | user => "user"
  | assistant => "assistant"
  | system => "system"
  end.

(** A [Date], as its time value in milliseconds. *)
Definition Date := Z.

Module Message.
Record t := {
  id : string;
  role : Role;
  content : string;
  timestamp : Date;
  imageUrl : option string;
}.
End Message.

Module ChatSession.
Record t := {
  id : string;
  title : string;
  modelId : string;
  messages : list Message.t;
  createdAt : Date;
  updatedAt : Date;
}.
End ChatSession.

(** [content: string | Array<{ type: string; text?: string;
    image_url?: { url: string } }>]. *)
Record ImageUrl := {
  url : string;
}.

Record ContentPart := {
  type : string;
  text : option string;
  image_url : option ImageUrl;
}.

Inductive Content :=
| ContentString (s : string)
| ContentParts (parts : list ContentPart).

Module RequestMessage.
Record t := {
  role : string;
  content : Content;
}.
End RequestMessage.

(** [SendMessageRequest & { session_id?: string }]. *)
Module SendMessageRequest.
Record t := {
  model : string;
  messages : list RequestMessage.t;
  session_id : option string;
}.
End SendMessageRequest.

Record ResponseMessage := {
  response_role : string;
  response_content : string;
}.

Record Choice := {
  message : ResponseMessage;
  finish_reason : string;
}.

Record Usage := {
  prompt_tokens : Z;
  completion_tokens : Z;
  total_tokens : Z;
}.

Module SendMessageResponse.
Record t := {
  id : string;
  model : string;
  choices : list Choice;
  usage : option Usage;
}.
End SendMessageResponse.

End Types.

(** ** The message input ([components/ChatInput.tsx]) *)

Module ChatInput.

Section WithFile.

(** The browser's [File] objects, and the data URL a [FileReader] produces
    for one ([None] when reading fails). *)
Variable File : Type.
Variable readAsDataURL : File → option string.

(** The component's state: [message], [imageFile], [imagePreview]. *)
Record State := {
  message : string;
  imageFile : option File;
  imagePreview : option string;
}.

Definition initial : State :=
  {| message := EmptyString; imageFile := None; imagePreview := None |}.

(** [!message.trim() && !imageFile]: nothing to send. *)
Definition nothing_to_send (st : State) : bool :=
  bool_decide (Js.trim (message st) = EmptyString)
  && match imageFile st with
     | Some _ => false
     | None => true
     end.

(**
<<
    const handleSubmit = (e: React.FormEvent) => {
      e.preventDefault();
      if (!message.trim() && !imageFile) return;

      onSendMessage(message, imageFile || undefined);
      setMessage('');
      setImageFile(null);
      setImagePreview(null);
    };
>>
    The result is the call of [onSendMessage], if any, and the next state. *)
Definition handleSubmit (st : State) : option (string * option File) * State :=
  if nothing_to_send st
  then (None, st)
  else (Some (message st, imageFile st), initial).

(** [onChange] of the text input: [setMessage(e.target.value)]. *)
Definition handleChange (value : string) (st : State) : State :=
  {| message := value;
     imageFile := imageFile st;
     imagePreview := imagePreview st |}.

(** [handleImageSelect] with a file chosen: the file is kept and its data
    URL becomes the preview once read. *)
Definition handleImageSelect (file : File) (st : State) : State :=
  {| message := message st;
     imageFile := Some file;
     imagePreview := readAsDataURL file |}.

Definition removeImage (st : State) : State :=
  {| message := message st; imageFile := None; imagePreview := None |}.

(** The submit button's [disabled] attribute:
    [disabled || (!message.trim() && !imageFile)]. *)
Definition submitDisabled (disabled : bool) (st : State) : bool :=
  disabled || nothing_to_send st.

End WithFile.

Arguments message {File} _.
Arguments imageFile {File} _.
Arguments imagePreview {File} _.
Arguments initial {File}.
Arguments nothing_to_send {File} st.
Arguments handleSubmit {File} st.
Arguments handleChange {File} value st.
Arguments removeImage {File} st.
Arguments submitDisabled {File} disabled st.

End ChatInput.


(** ** The application component ([App.tsx]) *)

Module App.
Import Types.

(** What the backend answers to the calls of [apiService], as the handlers
    see it: a request either resolves with the typed value its signature
    promises or rejects.  A rejected [sendMessage] carries
    [err.response?.data?.detail] when the response had one. *)
Record Api := {
  createSession : string → string → option ChatSession.t;
  sendMessage : SendMessageRequest.t → result (option string) SendMessageResponse.t;
  getSessions : option (list ChatSession.t);
}.

(** The requests a handler issues, in order. *)
Inductive ApiCall :=
| CallCreateSession (modelId title : string)
| CallSendMessage (request : SendMessageRequest.t)
| CallGetSessions.

(** The clock readings of one [handleSendMessage]: [Date.now()] and
    [new Date()] for the user message, [Date.now()] and twice [new Date()]
    for the reply. *)
Record Clock := {
  now_user_id : Z;
  now_user : Date;
  now_reply_id : Z;
  now_reply : Date;
  now_updated : Date;
}.

(** The component's state (the [useState] cells the handlers touch). *)
Record State := {
  selectedModel : string;
  sessions : list ChatSession.t;
  currentSession : option ChatSession.t;
  isLoading : bool;
  error : option string;
}.

Definition setSessions (v : list ChatSession.t) (st : State) : State :=
  {| selectedModel := selectedModel st; sessions := v;
     currentSession := currentSession st; isLoading := isLoading st;
     error := error st |}.

Definition setCurrentSession (v : option ChatSession.t) (st : State) : State :=
  {| selectedModel := selectedModel st; sessions := sessions st;
     currentSession := v; isLoading := isLoading st; error := error st |}.

Definition setIsLoading (v : bool) (st : State) : State :=
  {| selectedModel := selectedModel st; sessions := sessions st;
     currentSession := currentSession st; isLoading := v; error := error st |}.

Definition setError (v : option string) (st : State) : State :=
  {| selectedModel := selectedModel st; sessions := sessions st;
     currentSession := currentSession st; isLoading := isLoading st;
     error := v |}.

Section WithFile.

Variable File : Type.

(** [fileToBase64]: the data URL of the file, or a rejection. *)
Variable fileToBase64 : File → option string.

Variable api : Api.

(** A handler reads the state cells of the render it was created in
    ([st0]) and writes through the setters (to [st]).

<<
    const loadSessions = async () => {
      try {
        const sessionsData = await apiService.getSessions();
        setSessions(sessionsData);
      } catch (err) {
        console.error('Error loading sessions:', err);
      }
    };
>> *)
Definition loadSessions (st : State) : State :=
  match getSessions api with
  | Some sessionsData => setSessions sessionsData st
  | None => st
  end.

(** [handleNewChat]: the created session, or nothing ([undefined] without a
    selected model, [null] when the request fails). *)
Definition handleNewChat (st0 st : State)
    : State * option ChatSession.t * list ApiCall :=
  if decide (selectedModel st0 = EmptyString)
  then (setError (Some "Please select a model first") st, None, [])
  else
    let st := setError None st in
    let title := "Chat " +:+ pretty (Z.of_nat (length (sessions st0)) + 1)%Z in
    let calls := [CallCreateSession (selectedModel st0) title] in
    match createSession api (selectedModel st0) title with
    | Some newSession =>
        (setCurrentSession (Some newSession)
           (setSessions (newSession :: sessions st0) st),
         Some newSession, calls)
    | None =>
        (setError (Some "Failed to create new chat session") st, None, calls)
    end.

(** The user message of a turn, with [imageUrl] set when a file is attached
    ([None] when the file cannot be read). *)
Definition userMessage (clock : Clock) (content : string)
    (imageFile : option File) : option Message.t :=
  match imageFile with
  | Some file =>
      base64 ← fileToBase64 file;
      Some {| Message.id := pretty (now_user_id clock);
              Message.role := user;
              Message.content := content;
              Message.timestamp := now_user clock;
              Message.imageUrl := Some base64 |}
  | None =>
      Some {| Message.id := pretty (now_user_id clock);
              Message.role := user;
              Message.content := content;
              Message.timestamp := now_user clock;
              Message.imageUrl := None |}
  end.

(**
<<
    let messageContent: any = content;
    if (imageFile) {
      const base64 = await fileToBase64(imageFile);
      messageContent = [
        { type: 'text', text: content },
        { type: 'image_url', image_url: { url: base64 } },
      ];
    }
>> *)
Definition messageContent (content : string) (imageFile : option File)
    : option Content :=
  match imageFile with
  | Some file =>
      base64 ← fileToBase64 file;
      Some (ContentParts
              [ {| type := "text"; text := Some content; image_url := None |};
                {| type := "image_url"; text := None;
                   image_url := Some {| url := base64 |} |} ])
  | None => Some (ContentString content)
  end.

(** The argument of [apiService.sendMessage]:
<<
    {
      model: selectedModel,
      messages: [
        ...session.messages.map((msg) => ({
          role: msg.role,
          content: msg.content,
        })),
        { role: 'user', content: messageContent },
      ],
      session_id: session.id,
    }
>> *)
Definition chatRequest (selectedModel : string) (session : ChatSession.t)
    (messageContent : Content) : SendMessageRequest.t :=
  {| SendMessageRequest.model := selectedModel;
     SendMessageRequest.messages :=
       ((λ msg, {| RequestMessage.role := role_string (Message.role msg);
                   RequestMessage.content := ContentString (Message.content msg) |})
          <$> ChatSession.messages session)
       ++ [ {| RequestMessage.role := "user";
               RequestMessage.content := messageContent |} ];
     SendMessageRequest.session_id := Some (ChatSession.id session) |}.

(** The [catch] clause:
    [setError(err.response?.data?.detail || 'Failed to send message. Please try again.')]. *)
Definition catch (detail : option string) (st : State) : State :=
  setError
    (Some match detail with
          | Some d => if decide (d = EmptyString)
                      then "Failed to send message. Please try again."
                      else d
          | None => "Failed to send message. Please try again."
          end) st.

Definition withMessage (session : ChatSession.t) (msg : Message.t)
    : ChatSession.t :=
  {| ChatSession.id := ChatSession.id session;
     ChatSession.title := ChatSession.title session;
     ChatSession.modelId := ChatSession.modelId session;
     ChatSession.messages := ChatSession.messages session ++ [msg];
     ChatSession.createdAt := ChatSession.createdAt session;
     ChatSession.updatedAt := ChatSession.updatedAt session |}.

(** The [try] block of [handleSendMessage] with its [catch]: the request,
    the assistant message read from [response.choices[0]] (a [TypeError]
    when there is no choice), the reload of the session list. *)
Definition exchange (clock : Clock) (st0 st : State)
    (session updatedSession : ChatSession.t)
    (content : string) (imageFile : option File) : State * list ApiCall :=
  match messageContent content imageFile with
  | None => (catch None st, [])
  | Some messageContent =>
      let request := chatRequest (selectedModel st0) session messageContent in
      match sendMessage api request with
      | Err detail => (catch detail st, [CallSendMessage request])
      | Ok response =>
          match SendMessageResponse.choices response with
          | [] => (catch None st, [CallSendMessage request])
          | choice :: _ =>
              let assistantMessage :=
                {| Message.id := pretty (now_reply_id clock + 1)%Z;
                   Message.role := assistant;
                   Message.content := response_content (message choice);
                   Message.timestamp := now_reply clock;
                   Message.imageUrl := None |} in
              let s := withMessage updatedSession assistantMessage in
              let finalSession :=
                {| ChatSession.id := ChatSession.id s;
                   ChatSession.title := ChatSession.title s;
                   ChatSession.modelId := ChatSession.modelId s;
                   ChatSession.messages := ChatSession.messages s;
                   ChatSession.createdAt := ChatSession.createdAt s;
                   ChatSession.updatedAt := now_updated clock |} in
              (loadSessions (setCurrentSession (Some finalSession) st),
               [CallSendMessage request; CallGetSessions])
          end
      end
  end.

(** [handleSendMessage(content, imageFile)]: resolve the session (the
    current one, or a new one), show the user message, run the exchange,
    clear the loading flag.  When the first [fileToBase64] rejects the
    handler stops where it is. *)
Definition handleSendMessage (clock : Clock) (content : string)
    (imageFile : option File) (st0 : State) : State * list ApiCall :=
  let '(st, session, calls) :=
    match currentSession st0 with
    | Some session => (st0, Some session, [])
    | None => handleNewChat st0 st0
    end in
  match session with
  | None => (setError (Some "Failed to create chat session") st, calls)
  | Some session =>
      match userMessage clock content imageFile with
      | None => (st, calls)
      | Some userMessage =>
          let updatedSession := withMessage session userMessage in
          let st := setCurrentSession (Some updatedSession) st in
          let st := setIsLoading true st in
          let st := setError None st in
          let '(st, calls') :=
            exchange clock st0 st session updatedSession content imageFile in
          (setIsLoading false st, calls ++ calls')
      end
  end.

(** The session a turn is sent in: the current one, or the one
    [handleNewChat] obtains. *)
Definition resolvedSession (st0 : State) : option ChatSession.t :=
  match currentSession st0 with
  | Some session => Some session
  | None => (handleNewChat st0 st0).1.2
  end.

(** The [sendMessage] requests among the calls of a handler. *)
Definition sent (calls : list ApiCall) : list SendMessageRequest.t :=
  omap (λ c, match c with
             | CallSendMessage request => Some request
             | _ => None
             end) calls.

(** The form wired to the component: [<ChatInput onSendMessage={handleSendMessage} />]. *)
Definition submit (clock : Clock) (input : ChatInput.State File) (st0 : State)
    : (State * list ApiCall) * ChatInput.State File :=
  match ChatInput.handleSubmit input with
  | (Some (content, imageFile), input') =>
      (handleSendMessage clock content imageFile st0, input')
  | (None, input') => ((st0, []), input')
  end.

End WithFile.

End App.


(** ** Sample data *)

(** Concrete inputs on which the properties below are exercised. *)
Module Samples.

(** Scenario A of the design: a free vision model and a model with a paid
    prompt price. *)
Definition vision_model : ModelCatalog.Model :=
  {| ModelCatalog.id := "qwen/qwen-2-vl-7b-instruct:free";
     ModelCatalog.name := "Qwen 2 VL 7B Instruct (free)";
     ModelCatalog.description := Some "Vision-language model";
     ModelCatalog.context_length := Some 32768%Z;
     ModelCatalog.pricing :=
       Some {| ModelCatalog.prompt := Some "0";
               ModelCatalog.completion := Some "0" |};
     ModelCatalog.architecture :=
       Some {| ModelCatalog.input_modalities := Some ["text"; "image"] |} |}.

(** A free vision model that upstream already lists under a marked name. *)
Definition marked_model : ModelCatalog.Model :=
  {| ModelCatalog.id := "vendor/cam:free";
     ModelCatalog.name := "📷 Cam";
     ModelCatalog.description := None;
     ModelCatalog.context_length := None;
     ModelCatalog.pricing :=
       Some {| ModelCatalog.prompt := Some "0";
               ModelCatalog.completion := Some "0" |};
     ModelCatalog.architecture :=
       Some {| ModelCatalog.input_modalities := Some ["text"; "image"] |} |}.

Definition paid_model : ModelCatalog.Model :=
  {| ModelCatalog.id := "vendor/paid";
     ModelCatalog.name := "Paid";
     ModelCatalog.description := None;
     ModelCatalog.context_length := None;
     ModelCatalog.pricing :=
       Some {| ModelCatalog.prompt := Some "0.001";
               ModelCatalog.completion := Some "0" |};
     ModelCatalog.architecture := None |}.

(** A store with one session and two messages (scenario B). *)
Definition scenario_b : ConversationStore.Store :=
  ChatOrchestrator.run
    [ ChatOrchestrator.CreateSession 10 "m1" (Some "Chat 1");
      ChatOrchestrator.AppendMessage 11 0 "user" "hi" None None;
      ChatOrchestrator.AppendMessage 12 0 "assistant" "hello" None None ]
    ConversationStore.empty.

(** An upstream that answers every request with no choice. *)
Definition no_choice : ChatOrchestrator.Upstream :=
  λ modelId _,
    ChatOrchestrator.Completed
      {| ChatOrchestrator.id := "gen-1";
         ChatOrchestrator.model := modelId;
         ChatOrchestrator.choices := [];
         ChatOrchestrator.usage := None |}.

(** Two appends with the same timestamp, and one to another session. *)
Definition same_time_appends : list ChatOrchestrator.Append :=
  [ {| ChatOrchestrator.at_time := 20; ChatOrchestrator.to_session := 0;
       ChatOrchestrator.with_role := "user";
       ChatOrchestrator.with_content := "first";
       ChatOrchestrator.with_image := None;
       ChatOrchestrator.with_metadata := None |};
    {| ChatOrchestrator.at_time := 20; ChatOrchestrator.to_session := 7;
       ChatOrchestrator.with_role := "user";
       ChatOrchestrator.with_content := "elsewhere";
       ChatOrchestrator.with_image := None;
       ChatOrchestrator.with_metadata := None |};
    {| ChatOrchestrator.at_time := 20; ChatOrchestrator.to_session := 0;
       ChatOrchestrator.with_role := "assistant";
       ChatOrchestrator.with_content := "second";
       ChatOrchestrator.with_image := None;
       ChatOrchestrator.with_metadata := None |} ].

(** A message and a session summary as the backend serves them. *)
Definition server_message_props : list (string * Js.value) :=
  [ ("id", Js.VStr "m1");
    ("session_id", Js.VStr "s1");
    ("role", Js.VStr "user");
    ("content", Js.VStr "What is in this image?");
    ("image_url", Js.VStr "data:image/png;base64,AAAA");
    ("timestamp", Js.VStr "2024-01-01T12:00:00.123456");
    ("extra_metadata", Js.VNull) ].

Definition server_message : Js.value := Js.VObj server_message_props.

Definition server_summary : list (string * Js.value) :=
  [ ("id", Js.VStr "s1");
    ("title", Js.VStr "Chat 1");
    ("model_id", Js.VStr "m1");
    ("created_at", Js.VStr "2024-01-01T12:00:00");
    ("updated_at", Js.VStr "2024-01-01T12:05:00") ].

Definition server_session : list (string * Js.value) :=
  server_summary ++ [ ("messages", Js.VArr (Js.VObj <$> [server_message_props])) ].

(** The client with one empty session open, and a backend that answers
    with one choice.  A file stands for its data URL. *)
Definition session : Types.ChatSession.t :=
  {| Types.ChatSession.id := "s1";
     Types.ChatSession.title := "Chat 1";
     Types.ChatSession.modelId := "m1";
     Types.ChatSession.messages := [];
     Types.ChatSession.createdAt := 0%Z;
     Types.ChatSession.updatedAt := 0%Z |}.

Definition api : App.Api :=
  {| App.createSession := λ _ _, Some session;
     App.sendMessage := λ _,
       Ok {| Types.SendMessageResponse.id := "gen-1";
             Types.SendMessageResponse.model := "m1";
             Types.SendMessageResponse.choices :=
               [ {| Types.message :=
                      {| Types.response_role := "assistant";
                         Types.response_content := "A cat." |};
                    Types.finish_reason := "stop" |} ];
             Types.SendMessageResponse.usage := None |};
     App.getSessions := Some [session] |}.

Definition clock : App.Clock :=
  {| App.now_user_id := 1700000000000%Z;
     App.now_user := 1700000000000%Z;
     App.now_reply_id := 1700000000900%Z;
     App.now_reply := 1700000000900%Z;
     App.now_updated := 1700000000900%Z |}.

Definition state : App.State :=
  {| App.selectedModel := "m1";
     App.sessions := [session];
     App.currentSession := Some session;
     App.isLoading := false;
     App.error := None |}.

Definition image : string := "data:image/png;base64,AAAA".

End Samples.


(** ** More of the API client ([services/api.ts]) *)

Module ApiRequests.
Import Js.

(** The body [apiService.createSession] posts to [/sessions/]:
<<
    const response = await api.post<any>('/sessions/', {
      model_id: modelId,
      title: title || 'New Chat',
    });
>>
    [title] is the optional second argument. *)
Definition createSessionBody (modelId : string) (title : option string) : value :=
  VObj [ ("model_id", VStr modelId);
         ("title", VStr match title with
                        | Some t => if decide (t = EmptyString) then "New Chat" else t
                        | None => "New Chat"
                        end) ].

(** The path of one session: [`/sessions/${sessionId}`]. *)
Definition sessionPath (sessionId : string) : string :=
  "/sessions/" +:+ sessionId.

End ApiRequests.

(** ** The model list of the application ([App.tsx], [types/index.ts]) *)

Module AppCatalog.

(** [AIModel] of [types/index.ts]. *)
Module AIModel.
Record t := {
  id : string;
  name : string;
  description : option string;
  context_length : option Z;
  pricing : option (string * string);
  top_provider : option (option Z);
  supports_vision : option bool;
}.
End AIModel.

(** The component's state with the [models] cell. *)
Record State := {
  app : App.State;
  models : list AIModel.t;
}.

Definition setSelectedModel (v : string) (st : App.State) : App.State :=
  {| App.selectedModel := v; App.sessions := App.sessions st;
     App.currentSession := App.currentSession st;
     App.isLoading := App.isLoading st; App.error := App.error st |}.

(** The first render: the [useState] defaults. *)
Definition initial : State :=
  {| app := {| App.selectedModel := EmptyString;
               App.sessions := [];
               App.currentSession := None;
               App.isLoading := false;
               App.error := None |};
     models := [] |}.

(** A setter of one of the application's cells, on the whole state. *)
Definition write (set : App.State → App.State) (st : State) : State :=
  {| app := set (app st); models := models st |}.

Definition setModels (v : list AIModel.t) (st : State) : State :=
  {| app := app st; models := v |}.

(**
<<
    useEffect(() => {
      loadModels();
      loadSessions();
    }, []);

    const loadModels = async () => {
      try {
        setError(null);
        const modelsData = await apiService.getModels();
        setModels(modelsData);
        if (modelsData.length > 0 && !selectedModel) {
          setSelectedModel(modelsData[0].id);
        }
      } catch (err) {
        setError('Failed to load AI models. Please check your connection.');
        console.error('Error loading models:', err);
      }
    };
>>
    [st0] is the render the function belongs to and is called in: it reads
    [selectedModel] there, also after the [await].  [getModels] is the
    outcome of the request ([None] when it rejects); [pending] is what the
    rest of the component ([loadSessions], the handlers) writes while the
    request is pending, so that the setters after the [await] write to
    [pending] of the state the call left.  The mount effect is the one call
    site, and it runs after the first render: there [st0] is [initial]. *)
Definition loadModels (getModels : option (list AIModel.t))
    (pending : State → State) (st0 : State) : State :=
  let st := pending (write (App.setError None) st0) in
  match getModels with
  | Some modelsData =>
      let st := setModels modelsData st in
      match modelsData with
      | first :: _ =>
          if decide (App.selectedModel (app st0) = EmptyString)
          then write (setSelectedModel (AIModel.id first)) st
          else st
      | [] => st
      end
  | None =>
      write (App.setError
               (Some "Failed to load AI models. Please check your connection."))
            st
  end.

(**
<<
    const currentModelSupportsImages = models
      .find((m) => m.id === selectedModel)
      ?.supports_vision || false;
>> *)
Definition currentModelSupportsImages (st : State) : bool :=
  match List.find (λ m, bool_decide (AIModel.id m = App.selectedModel (app st)))
                  (models st) with
  | Some m => default false (AIModel.supports_vision m)
  | None => false
  end.

(** The name shown with the messages of a session:
<<
    const messageModel = models.find((m) => m.id === currentSession.modelId);
    const modelName = messageModel?.name || currentSession.modelId;
>> *)
Definition modelName (models : list AIModel.t) (session : Types.ChatSession.t)
    : string :=
  match List.find (λ m, bool_decide (AIModel.id m = Types.ChatSession.modelId session))
                  models with
  | Some m => if decide (AIModel.name m = EmptyString)
              then Types.ChatSession.modelId session
              else AIModel.name m
  | None => Types.ChatSession.modelId session
  end.

(** [m] is the first model of the list that has the identifier. *)
Definition first_with_id (models : list AIModel.t) (modelId : string)
    (m : AIModel.t) : Prop :=
  ∃ before after,
    models = before ++ m :: after
    ∧ AIModel.id m = modelId
    ∧ Forall (λ x, AIModel.id x ≠ modelId) before.

(** The [modelName] property a message is rendered with:
    [message.role === 'assistant' ? modelName : undefined]. *)
Definition modelNameProp (models : list AIModel.t) (session : Types.ChatSession.t)
    (message : Types.Message.t) : option string :=
  match Types.Message.role message with
  | Types.assistant => Some (modelName models session)
  | _ => None
  end.

End AppCatalog.

(** ** A rendered message ([components/ChatMessage.tsx]) *)

Module ChatMessage.

(** [const isUser = message.role === 'user';] *)
Definition isUser (message : Types.Message.t) : bool :=
  match Types.Message.role message with
  | Types.user => true
  | _ => false
  end.

(** [{isUser ? 'You' : 'AI Assistant'}]. *)
Definition author (message : Types.Message.t) : string :=
  if isUser message then "You" else "AI Assistant".

(** [{!isUser && modelName && (<span> ... {modelName}</span>)}]: the model
    name the message shows, if it shows one. *)
Definition shownModelName (message : Types.Message.t) (modelName : option string)
    : option string :=
  if isUser message then None
  else match modelName with
       | Some n => if decide (n = EmptyString) then None else Some n
       | None => None
       end.

(** [{message.imageUrl && (<img src={message.imageUrl} ... />)}]: the image
    the message shows, if it shows one. *)
Definition shownImage (message : Types.Message.t) : option string :=
  match Types.Message.imageUrl message with
  | Some src => if decide (src = EmptyString) then None else Some src
  | None => None
  end.

End ChatMessage.

(** ** Session handlers of the application ([App.tsx]) *)

Module AppSessions.
Import Types.

(**
<<
    const handleSelectSession = async (sessionId: string) => {
      try {
        setError(null);
        const session = await apiService.getSession(sessionId);
        setCurrentSession(session);
        setSelectedModel(session.modelId);
      } catch (err) {
        setError('Failed to load chat session');
        console.error('Error loading session:', err);
      }
    };
>>
    [getSession] is the backend's answer ([None] when the request rejects). *)
Definition handleSelectSession (getSession : string → option ChatSession.t)
    (sessionId : string) (st0 : App.State) : App.State :=
  let st := App.setError None st0 in
  match getSession sessionId with
  | Some session =>
      AppCatalog.setSelectedModel (ChatSession.modelId session)
        (App.setCurrentSession (Some session) st)
  | None => App.setError (Some "Failed to load chat session") st
  end.

(**
<<
    const handleDeleteSession = async (sessionId: string) => {
      if (!confirm('Are you sure you want to delete this chat?')) return;

      try {
        setError(null);
        await apiService.deleteSession(sessionId);
        setSessions(sessions.filter((s) => s.id !== sessionId));
        if (currentSession?.id === sessionId) {
          setCurrentSession(null);
        }
      } catch (err) {
        setError('Failed to delete chat session');
        console.error('Error deleting session:', err);
      }
    };
>>
    [confirm] is the user's answer, [deleteSession] whether the request
    resolves. *)
Definition handleDeleteSession (confirm : bool) (deleteSession : string → bool)
    (sessionId : string) (st0 : App.State) : App.State :=
  if negb confirm then st0
  else
    let st := App.setError None st0 in
    if deleteSession sessionId
    then
      let st :=
        App.setSessions
          (filter (λ s, ChatSession.id s ≠ sessionId) (App.sessions st0)) st in
      match App.currentSession st0 with
      | Some current =>
          if decide (ChatSession.id current = sessionId)
          then App.setCurrentSession None st
          else st
      | None => st
      end
    else App.setError (Some "Failed to delete chat session") st.

End AppSessions.


(** ** Blank text *)

Module Text.

(** Text made of ASCII white space only (TAB, LF, VT, FF, CR, SP). *)
Fixpoint blank (s : string) : bool :=
  match s with
  | EmptyString => true
  | String c s => Ascii.is_space c && blank s
  end.

End Text.

(** ** Sample data for the further properties *)

Module MoreSamples.

(** A backend whose chat request is rejected with a detail. *)
Definition failing_api : App.Api :=
  {| App.createSession := λ _ _, None;
     App.sendMessage := λ _, Err (Some "Chat completion failed: timeout");
     App.getSessions := Some [] |}.

Definition vision : AppCatalog.AIModel.t :=
  {| AppCatalog.AIModel.id := "qwen/qwen-2-vl-7b-instruct:free";
     AppCatalog.AIModel.name := "📷 Qwen 2 VL 7B Instruct (free)";
     AppCatalog.AIModel.description := None;
     AppCatalog.AIModel.context_length := Some 32768%Z;
     AppCatalog.AIModel.pricing := Some ("0", "0");
     AppCatalog.AIModel.top_provider := None;
     AppCatalog.AIModel.supports_vision := Some true |}.

Definition text_only : AppCatalog.AIModel.t :=
  {| AppCatalog.AIModel.id := "m1";
     AppCatalog.AIModel.name := "Model One";
     AppCatalog.AIModel.description := None;
     AppCatalog.AIModel.context_length := None;
     AppCatalog.AIModel.pricing := None;
     AppCatalog.AIModel.top_provider := None;
     AppCatalog.AIModel.supports_vision := None |}.

Definition other_session : Types.ChatSession.t :=
  {| Types.ChatSession.id := "s2";
     Types.ChatSession.title := "Chat 2";
     Types.ChatSession.modelId := "qwen/qwen-2-vl-7b-instruct:free";
     Types.ChatSession.messages := [];
     Types.ChatSession.createdAt := 5%Z;
     Types.ChatSession.updatedAt := 5%Z |}.

Definition two_sessions : App.State :=
  {| App.selectedModel := "m1";
     App.sessions := [other_session; Samples.session];
     App.currentSession := Some Samples.session;
     App.isLoading := false;
     App.error := None |}.

Definition no_session : App.State :=
  {| App.selectedModel := EmptyString;
     App.sessions := [];
     App.currentSession := None;
     App.isLoading := false;
     App.error := None |}.

End MoreSamples.


(** * Properties *)

(** ** Model catalog *)

Section CatalogProperties.
Import ModelCatalog.

(** The condition of the comprehension, with its defaults, says that both
    prices are declared and equal ["0"]. *)
Lemma free_condition_zero_priced model :
  get (prompt (get (pricing model) no_pricing)) "1" = "0"
  ∧ get (completion (get (pricing model) no_pricing)) "1" = "0"
  ↔ zero_priced model.
Proof.
  unfold zero_priced.
  destruct (pricing model) as [[[p|] [c|]]|]; simpl; split;
    try (intros [? ?]; discriminate);
    try (intros (q & Hq & Hp & Hc); simplify_eq/=; done).
  intros [-> ->]. eauto.
Qed.

Lemma free_models_elem all_models model :
  model ∈ free_models all_models ↔ model ∈ all_models ∧ zero_priced model.
Proof.
  unfold free_models. rewrite list_elem_of_filter, free_condition_zero_priced.
  tauto.
Qed.

(** Freeness is decided on the prices alone, and the descriptor keeps them. *)
Lemma describe_pricing model :
  Descriptor.pricing (describe model) = pricing model.
Proof.
  unfold describe, mark_vision. by destruct (_check_vision_support model).
Qed.

Lemma zero_priced_describe m1 m2 :
  describe m1 = describe m2 → zero_priced m1 → zero_priced m2.
Proof.
  intros Hd. unfold zero_priced.
  by rewrite <- (describe_pricing m1), Hd, describe_pricing.
Qed.

(** C1.  An upstream entry is retained by the free-model filter, and so
    appears in the catalog's output, if and only if its prompt price and its
    completion price are both ["0"]; an entry without a pricing field is not
    retained. *)
Theorem free_models_iff_zero_priced all_models model :
  (model ∈ free_models all_models ↔ model ∈ all_models ∧ zero_priced model)
  ∧ (pricing model = None → model ∉ free_models all_models).
Proof.
  split; [apply free_models_elem|].
  intros Hnone [_ (p & Hp & _)]%free_models_elem. congruence.
Qed.

(** On the descriptors of [listFreeModels]: the descriptor of an upstream
    entry is in the output exactly when the entry is zero-priced. *)
Lemma listFreeModels_appears all_models model :
  model ∈ all_models →
  (describe model ∈ listFreeModels all_models ↔ zero_priced model)
  ∧ (pricing model = None → describe model ∉ listFreeModels all_models).
Proof.
  intros Hin.
  assert (describe model ∈ listFreeModels all_models ↔ zero_priced model) as Hiff.
  { unfold listFreeModels. rewrite list_elem_of_fmap. split.
    - intros (m & Hd & Hm). apply free_models_elem in Hm as [_ Hz].
      by apply (zero_priced_describe m).
    - intros Hz. exists model. split; [done|]. by apply free_models_elem. }
  split; [done|].
  intros Hnone Hout. apply Hiff in Hout as (p & Hp & _). congruence.
Qed.

(** The output lists the free entries in upstream order, one descriptor
    each: nothing is merged, added or reordered. *)
Lemma listFreeModels_ids all_models :
  Descriptor.id <$> listFreeModels all_models = id <$> free_models all_models.
Proof.
  unfold listFreeModels. rewrite <- list_fmap_compose.
  apply list_fmap_ext. intros _ m _. simpl.
  unfold describe, mark_vision. by destruct (_check_vision_support m).
Qed.

(** The shortened filter quoted in the top-level README is weaker: it keeps
    an entry whose completion price is not zero. *)
Lemma free_models_overview_differs :
  let paid_completion :=
    {| id := "m"; name := "M"; description := None; context_length := None;
       pricing := Some {| prompt := Some "0"; completion := Some "0.001" |};
       architecture := None |} in
  free_models_overview [paid_completion] = [paid_completion]
  ∧ free_models [paid_completion] = [].
Proof. split; reflexivity. Qed.

(** The subscripted form agrees with the shortened filter when every entry
    declares a prompt price, and raises on an entry without pricing. *)
Lemma free_models_indexed_declared all_models :
  Forall (λ m, ∃ p price, pricing m = Some p ∧ prompt p = Some price) all_models →
  free_models_indexed all_models = Ok (free_models_overview all_models).
Proof.
  induction 1 as [|m l (p & price & Hp & Hprice) _ IH]; [done|].
  simpl. rewrite Hp. simpl. rewrite Hprice. simpl. rewrite IH. simpl.
  unfold free_models_overview.
  rewrite (filter_cons (λ model, get (prompt (get (pricing model) no_pricing)) "1" = "0")).
  rewrite Hp. simpl. rewrite Hprice. simpl.
  by destruct (decide (price = "0")).
Qed.

Lemma free_models_indexed_missing :
  free_models_indexed
    [ {| id := "m"; name := "M"; description := None; context_length := None;
         pricing := None; architecture := None |} ]
  = Err (KeyError "pricing").
Proof. reflexivity. Qed.

Lemma after_prefix_app prefix s : after_prefix prefix (prefix +:+ s) = Some s.
Proof.
  induction prefix as [|a prefix IH]; simpl; [by destruct s|].
  by rewrite decide_True.
Qed.

Lemma declares_image_check model :
  declares_image model ↔ _check_vision_support model = true.
Proof.
  unfold declares_image, _check_vision_support. cbv zeta.
  rewrite bool_decide_eq_true.
  destruct (architecture model) as [[[modalities|]]|]; unfold get; split.
  - by intros (arch & l & [= <-] & [= <-] & Hin).
  - intros Hin. by exists {| input_modalities := Some modalities |}, modalities.
  - by intros (arch & l & [= <-] & [=] & _).
  - by intros ?%elem_of_nil.
  - by intros (arch & l & [=] & _).
  - by intros ?%elem_of_nil.
Qed.

(** C2.  For every retained entry, after the vision check: when ["image"]
    is among the declared input modalities, the flag is true and the entry
    is returned with the marker put before its upstream name, everything
    else as it was; one marker is added, so the returned name starts with
    the marker exactly once precisely when the upstream name did not start
    with it already.  Otherwise the flag is false and the entry is returned
    as it was. *)
Theorem mark_vision_retained all_models model :
  model ∈ free_models all_models →
  (declares_image model →
   mark_vision model
   = ({| id := id model;
         name := vision_marker +:+ name model;
         description := description model;
         context_length := context_length model;
         pricing := pricing model;
         architecture := architecture model |}, true)
   ∧ marked_once (name (mark_vision model).1) = negb (marked (name model)))
  ∧ (¬ declares_image model → mark_vision model = (model, false)).
Proof.
  intros _. rewrite declares_image_check. unfold mark_vision.
  destruct (_check_vision_support model); split.
  - intros _. split; [reflexivity|]. simpl.
    unfold marked_once. by rewrite after_prefix_app.
  - by intros [].
  - discriminate.
  - reflexivity.
Qed.

(** The claim as the specification words it (the returned name is prefixed
    with the marker exactly once) fails on a retained entry whose upstream
    name starts with the marker: it is returned with two. *)
Lemma mark_vision_marked_twice :
  Samples.marked_model ∈ free_models [Samples.marked_model]
  ∧ declares_image Samples.marked_model
  ∧ (mark_vision Samples.marked_model).2 = true
  ∧ name (mark_vision Samples.marked_model).1 = "📷 📷 Cam"
  ∧ marked_once (name (mark_vision Samples.marked_model).1) = false.
Proof.
  split; [apply list_elem_of_here|].
  split; [|by vm_compute].
  eexists _, _. split; [reflexivity|]. split; [reflexivity|].
  apply list_elem_of_further, list_elem_of_here.
Qed.

(** The subscripted quotation of the check does what the [get] form does on
    an entry that declares its architecture and input modalities, and raises
    [KeyError] for the key the entry lacks otherwise. *)
Theorem mark_vision_indexed_outcome model :
  match mark_vision_indexed model with
  | Ok returned =>
      (∃ arch modalities,
         architecture model = Some arch
         ∧ input_modalities arch = Some modalities)
      ∧ returned = mark_vision model
  | Err (KeyError key) =>
      (architecture model = None ∧ key = "architecture")
      ∨ (∃ arch, architecture model = Some arch
           ∧ input_modalities arch = None ∧ key = "input_modalities")
  end.
Proof.
  unfold mark_vision_indexed, mark_vision, _check_vision_support.
  destruct (architecture model) as [[[modalities|]]|] eqn:Harch; simpl.
  - split; [by eexists _, _|].
    by destruct (bool_decide ("image" ∈ modalities)).
  - right. by eexists.
  - by left.
Qed.

(** The descriptors of [listFreeModels] carry that flag and that name. *)
Lemma listFreeModels_vision all_models :
  Forall2 (λ model d,
             Descriptor.supports_vision d = (mark_vision model).2
             ∧ Descriptor.name d = name (mark_vision model).1
             ∧ Descriptor.id d = id model)
          (free_models all_models) (listFreeModels all_models).
Proof.
  unfold listFreeModels. apply Forall2_fmap_r, Forall_Forall2_diag.
  apply Forall_forall. intros model _. simpl.
  unfold describe, mark_vision. by destruct (_check_vision_support model).
Qed.

(** Scenario A: of a free vision model and a model with a paid prompt, the
    catalog returns the first alone, flagged and marked. *)
Lemma scenario_a :
  listFreeModels [Samples.vision_model; Samples.paid_model]
  = [ {| Descriptor.id := "qwen/qwen-2-vl-7b-instruct:free";
         Descriptor.name := "📷 Qwen 2 VL 7B Instruct (free)";
         Descriptor.description := Some "Vision-language model";
         Descriptor.context_length := Some 32768%Z;
         Descriptor.supports_vision := true;
         Descriptor.pricing :=
           Some {| prompt := Some "0"; completion := Some "0" |} |} ].
Proof. reflexivity. Qed.

End CatalogProperties.

(** ** The client's request assembly *)

Section AppProperties.
Import Types App.

Context {File : Type} (fileToBase64 : File → option string) (api : Api).

(** Whatever the backend answers, the exchange issues exactly one
    [sendMessage] request, built from the session the turn was resolved to. *)
Lemma exchange_sent clock st0 st session updatedSession content imageFile mc :
  messageContent File fileToBase64 content imageFile = Some mc →
  sent (exchange File fileToBase64 api clock st0 st session updatedSession
                 content imageFile).2
  = [chatRequest (selectedModel st0) session mc].
Proof.
  intros Hmc. unfold exchange. rewrite Hmc.
  destruct (sendMessage api _) as [response|detail]; [|done].
  by destruct (SendMessageResponse.choices response).
Qed.

Lemma handleNewChat_sent st0 st :
  sent (handleNewChat api st0 st).2 = [].
Proof.
  unfold handleNewChat.
  destruct (decide (selectedModel st0 = EmptyString)); [done|].
  by destruct (createSession api _ _).
Qed.

Lemma sent_app calls1 calls2 : sent (calls1 ++ calls2) = sent calls1 ++ sent calls2.
Proof. apply omap_app. Qed.

(** The calls of a turn that was resolved to [session] and whose file, if
    any, could be read. *)
Lemma handleSendMessage_sent clock content imageFile st0 session um mc :
  resolvedSession api st0 = Some session →
  userMessage File fileToBase64 clock content imageFile = Some um →
  messageContent File fileToBase64 content imageFile = Some mc →
  sent (handleSendMessage File fileToBase64 api clock content imageFile st0).2
  = [chatRequest (selectedModel st0) session mc].
Proof.
  intros Hres Hum Hmc. unfold handleSendMessage, resolvedSession in *.
  destruct (currentSession st0) as [current|].
  - simplify_eq. rewrite Hum.
    destruct (exchange _ _ _ _ _ _ _ _ _ _) as [st' calls'] eqn:Hex.
    simpl. change calls' with (st', calls').2. rewrite <- Hex.
    by apply exchange_sent.
  - pose proof (handleNewChat_sent st0 st0) as Hnew.
    destruct (handleNewChat api st0 st0) as [[st created] calls].
    simpl in Hres, Hnew. subst created. rewrite Hum.
    destruct (exchange _ _ _ _ _ _ _ _ _ _) as [st' calls'] eqn:Hex.
    simpl. rewrite sent_app, Hnew. simpl.
    change calls' with (st', calls').2. rewrite <- Hex.
    by apply exchange_sent.
Qed.

(** C3.  A turn sent in [session] issues one request; its message sequence
    is every prior message of the session as a role and a plain string (the
    stored [imageUrl] is not part of the wire shape), followed by one new
    [user] message, whose content is the two-part text and image payload
    when a file is attached and the plain text otherwise. *)
Theorem handleSendMessage_outgoing clock content imageFile st0 session :
  resolvedSession api st0 = Some session →
  (∀ file, imageFile = Some file → is_Some (fileToBase64 file)) →
  ∃ request newContent,
    sent (handleSendMessage File fileToBase64 api clock content imageFile st0).2
    = [request]
    ∧ SendMessageRequest.messages request
      = ((λ msg, {| RequestMessage.role := role_string (Message.role msg);
                    RequestMessage.content := ContentString (Message.content msg) |})
           <$> ChatSession.messages session)
        ++ [ {| RequestMessage.role := "user";
                RequestMessage.content := newContent |} ]
    ∧ match imageFile with
      | Some file =>
          ∃ base64, fileToBase64 file = Some base64
            ∧ newContent
              = ContentParts
                  [ {| type := "text"; text := Some content; image_url := None |};
                    {| type := "image_url"; text := None;
                       image_url := Some {| url := base64 |} |} ]
      | None => newContent = ContentString content
      end.
Proof.
  intros Hres Hread.
  destruct imageFile as [file|].
  - destruct (Hread file eq_refl) as [base64 Hb].
    eexists _, _. split; [|split].
    + eapply handleSendMessage_sent; [done|..]; simpl; rewrite Hb; done.
    + done.
    + by exists base64.
  - eexists _, _. split; [|split].
    + eapply handleSendMessage_sent; done.
    + done.
    + done.
Qed.

(** Two sessions that differ only in the image references of their stored
    messages yield the same request. *)
Lemma chatRequest_ignores_stored_images selectedModel s1 s2 mc :
  ChatSession.id s1 = ChatSession.id s2 →
  Forall2 (λ m1 m2, Message.role m1 = Message.role m2
                    ∧ Message.content m1 = Message.content m2)
          (ChatSession.messages s1) (ChatSession.messages s2) →
  chatRequest selectedModel s1 mc = chatRequest selectedModel s2 mc.
Proof.
  intros Hid Hmsgs. unfold chatRequest. rewrite Hid. do 2 f_equal.
  induction Hmsgs as [|m1 m2 l1 l2 [Hr Hc] _ IH]; [done|].
  rewrite !fmap_cons, Hr, Hc. by f_equal.
Qed.

(** The client never sends a turn without a session identifier: every
    request of [handleSendMessage] names the session it was resolved to,
    which is created first when there is no current one. *)
Lemma handleSendMessage_names_session clock content imageFile st0 request :
  request ∈ sent (handleSendMessage File fileToBase64 api clock content imageFile st0).2 →
  ∃ session, resolvedSession api st0 = Some session
    ∧ SendMessageRequest.session_id request = Some (ChatSession.id session).
Proof.
  unfold handleSendMessage, resolvedSession.
  assert (∀ st session updated,
            request ∈ sent (exchange File fileToBase64 api clock st0 st session
                                     updated content imageFile).2 →
            SendMessageRequest.session_id request = Some (ChatSession.id session))
    as Hex.
  { intros st session updated. unfold exchange.
    destruct (messageContent _ _ _ _) as [mc|]; simpl; [|by intros ?%elem_of_nil].
    destruct (sendMessage api _) as [response|detail];
      [destruct (SendMessageResponse.choices response)|]; simpl;
      by intros ->%list_elem_of_singleton. }
  destruct (currentSession st0) as [current|].
  - destruct (userMessage _ _ _ _ _) as [um|]; simpl; [|by intros ?%elem_of_nil].
    destruct (exchange _ _ _ _ _ _ _ _ _ _) as [st' calls'] eqn:Hcalls.
    simpl. intros Hin. exists current. split; [done|].
    eapply Hex. by rewrite Hcalls.
  - pose proof (handleNewChat_sent st0 st0) as Hnew.
    destruct (handleNewChat api st0 st0) as [[st created] calls].
    simpl in *. destruct created as [session|]; simpl.
    + destruct (userMessage _ _ _ _ _) as [um|]; simpl.
      * destruct (exchange _ _ _ _ _ _ _ _ _ _) as [st' calls'] eqn:Hcalls.
        simpl. rewrite sent_app, Hnew. simpl. intros Hin.
        exists session. split; [done|]. eapply Hex. by rewrite Hcalls.
      * rewrite Hnew. by intros ?%elem_of_nil.
    + rewrite Hnew. by intros ?%elem_of_nil.
Qed.

(** When the backend answers with no choice, the client shows an error and
    no assistant message: the current session ends with the user's turn. *)
Lemma exchange_no_choice clock st0 st session updated content imageFile mc response :
  messageContent File fileToBase64 content imageFile = Some mc →
  sendMessage api (chatRequest (selectedModel st0) session mc) = Ok response →
  SendMessageResponse.choices response = [] →
  (exchange File fileToBase64 api clock st0 st session updated content imageFile).1
  = setError (Some "Failed to send message. Please try again.") st.
Proof.
  intros Hmc Hsend Hchoices. unfold exchange. by rewrite Hmc, Hsend, Hchoices.
Qed.

End AppProperties.

(** ** Conversation store and chat orchestrator *)

Section StoreProperties.
Import ConversationStore ChatOrchestrator.

(** *** What each operation does to the two tables *)

Lemma getSession_Ok id st s history :
  getSession id st = Ok (s, history) ↔
  chat_sessions st !! id = Some s ∧ history = messages_of id st.
Proof.
  unfold getSession. destruct (chat_sessions st !! id) as [s'|]; split;
    [intros [= <- <-]; done|intros [[= ->] ->]; done|done|intros [[=] _]].
Qed.

Lemma getSession_NotFound id st :
  getSession id st = Err NotFound ↔ chat_sessions st !! id = None.
Proof. unfold getSession. by destruct (chat_sessions st !! id). Qed.

Lemma appendMessage_NotFound now id role content imageRef metadata st :
  chat_sessions st !! id = None →
  appendMessage now id role content imageRef metadata st = Err NotFound.
Proof. intros Hnone. unfold appendMessage. by rewrite Hnone. Qed.

Lemma appendMessage_Ok now id role content imageRef metadata st :
  is_Some (chat_sessions st !! id) →
  ∃ st' m,
    appendMessage now id role content imageRef metadata st = Ok (st', m)
    ∧ messages st' = messages st ++ [m]
    ∧ next_id st' = S (next_id st)
    ∧ (∀ k, is_Some (chat_sessions st' !! k) ↔ is_Some (chat_sessions st !! k))
    ∧ appended m = {| at_time := now; to_session := id; with_role := role;
                      with_content := content; with_image := imageRef;
                      with_metadata := metadata |}.
Proof.
  intros [s Hs]. unfold appendMessage. rewrite Hs.
  eexists _, _. split; [done|]. simpl. repeat split; try done.
  - rewrite lookup_insert_is_Some. intros [->|[_ ?]]; [by eexists|done].
  - intros Hk. rewrite lookup_insert_is_Some.
    destruct (decide (id = k)); [by left|by right].
Qed.

(** *** A turn is a sequence of appends *)

Lemma sendTurn_appends upstream t_user t_reply modelId ctx text image st :
  ∃ calls, Forall primitive calls
    ∧ (calls ≫= call_times) `sublist_of` [t_user; t_reply]
    ∧ (sendTurn upstream t_user t_reply modelId ctx text image st).1 = run calls st.
Proof.
  unfold sendTurn.
  assert ([] `sublist_of` [t_user; t_reply]) as Hnil by apply sublist_nil_l.
  destruct (assemble ctx text image st) as [outgoing|e]; [|by exists []].
  destruct ctx as [prior|sessionId]; [by exists []|].
  destruct (appendMessage t_user sessionId "user" text image None st)
    as [[st1 m1]|e] eqn:Huser; [|by exists []].
  destruct (respond (upstream modelId outgoing)) as [r|e].
  - destruct (appendMessage t_reply sessionId "assistant" (reply r) None None st1)
      as [[st2 m2]|e] eqn:Hreply.
    + exists [AppendMessage t_user sessionId "user" text image None;
              AppendMessage t_reply sessionId "assistant" (reply r) None None].
      split; [by repeat constructor|]. split; [done|].
      simpl. by rewrite Huser, Hreply.
    + exists [AppendMessage t_user sessionId "user" text image None].
      split; [by repeat constructor|].
      split; [simpl; apply sublist_skip, sublist_nil_l|].
      simpl. by rewrite Huser.
  - exists [AppendMessage t_user sessionId "user" text image None].
    split; [by repeat constructor|].
    split; [simpl; apply sublist_skip, sublist_nil_l|].
    simpl. by rewrite Huser.
Qed.

Lemma run_app calls1 calls2 st : run (calls1 ++ calls2) st = run calls2 (run calls1 st).
Proof. apply foldl_app. Qed.

(** Every call sequence has the effect of a sequence of primitive calls,
    which carries no other clock readings and none out of order. *)
Lemma run_primitive calls st :
  ∃ prims, Forall primitive prims
    ∧ (prims ≫= call_times) `sublist_of` (calls ≫= call_times)
    ∧ run calls st = run prims st.
Proof.
  revert st. induction calls as [|c calls IH]; intros st; [by exists []|].
  assert (∃ prims, Forall primitive prims
            ∧ (prims ≫= call_times) `sublist_of` call_times c
            ∧ exec st c = run prims st)
    as (p1 & Hp1 & Ht1 & Hc).
  { destruct c;
      try (match goal with |- ∃ _, _ ∧ _ ∧ exec _ ?c = _ => exists [c] end;
           split; [by repeat constructor|]; split; [|done];
           simpl; rewrite ?app_nil_r; reflexivity).
    apply sendTurn_appends. }
  destruct (IH (exec st c)) as (p2 & Hp2 & Ht2 & Hrest).
  exists (p1 ++ p2). split; [by apply Forall_app|].
  split; [rewrite bind_app, bind_cons; by apply sublist_app|].
  rewrite run_app, <- Hc. done.
Qed.

(** *** Invariants of the store *)

(** The three facts the cascade rests on: no orphan message, identifiers
    below the counter, and an absent identifier below the counter stays
    absent. *)
Lemma exec_primitive_inv st c :
  primitive c →
  (no_orphans st → no_orphans (exec st c))
  ∧ next_id st ≤ next_id (exec st c)
  ∧ (∀ k, is_Some (chat_sessions (exec st c) !! k) →
          is_Some (chat_sessions st !! k) ∨ next_id st ≤ k < next_id (exec st c)).
Proof.
  destruct c as [now modelId title|now id newTitle|id
                |now sid role content imageRef metadata|]; simpl; [| | | |done];
    intros _.
  - (* createSession *)
    split; [|split; [lia|]].
    + intros Hno m Hm. simpl in *. rewrite lookup_insert_is_Some.
      destruct (decide (next_id st = Message.session_id m)); [by left|right].
      split; [done|]. by apply Hno.
    + intros k. rewrite lookup_insert_is_Some. intros [<-|[_ ?]]; [right; lia|by left].
  - (* updateTitle *)
    unfold updateTitle. destruct (chat_sessions st !! id) as [s|] eqn:Hs;
      simpl; [|by eauto].
    split; [|split; [lia|]].
    + intros Hno m Hm. simpl in *. rewrite lookup_insert_is_Some.
      destruct (decide (id = Message.session_id m)); [by left|right].
      split; [done|]. by apply Hno.
    + intros k. rewrite lookup_insert_is_Some.
      intros [<-|[_ ?]]; left; [by eexists|done].
  - (* deleteSession *)
    unfold deleteSession. destruct (chat_sessions st !! id) as [s|] eqn:Hs;
      simpl; [|by eauto].
    split; [|split; [lia|]].
    + intros Hno m. simpl. rewrite list_elem_of_filter. intros [Hne Hm].
      rewrite lookup_delete_is_Some. split; [done|]. by apply Hno.
    + intros k. rewrite lookup_delete_is_Some. intros [_ ?]. by left.
  - (* appendMessage *)
    destruct (chat_sessions st !! sid) as [s|] eqn:Hs.
    + destruct (appendMessage_Ok now sid role content imageRef metadata st)
        as (st' & m & -> & Hmsgs & Hnext & Hkeys & Hm); [by eexists|].
      split; [|split; [lia|]].
      * intros Hno m'. rewrite Hmsgs, elem_of_app, list_elem_of_singleton.
        intros [Hin| ->]; apply Hkeys; [by apply Hno|].
        apply (f_equal to_session) in Hm. simpl in Hm. rewrite Hm. by eexists.
      * intros k Hk. left. by apply Hkeys.
    + rewrite appendMessage_NotFound by done. by eauto.
Qed.

Lemma run_primitive_inv prims st :
  Forall primitive prims →
  (no_orphans st → no_orphans (run prims st))
  ∧ next_id st ≤ next_id (run prims st)
  ∧ (∀ k, is_Some (chat_sessions (run prims st) !! k) →
          is_Some (chat_sessions st !! k) ∨ next_id st ≤ k < next_id (run prims st)).
Proof.
  intros Hprims. revert st.
  induction Hprims as [|c prims Hc _ IH]; intros st; simpl.
  { split; [done|]. split; [done|]. by left. }
  destruct (exec_primitive_inv st c Hc) as (Hno1 & Hn1 & Hk1).
  destruct (IH (exec st c)) as (Hno2 & Hn2 & Hk2).
  split; [by auto|]. split; [by etrans|].
  intros k Hk. destruct (Hk2 k Hk) as [Hin|?]; [|right; lia].
  destruct (Hk1 k Hin) as [?|?]; [by left|right; lia].
Qed.

Lemma run_inv calls st :
  (no_orphans st → no_orphans (run calls st))
  ∧ next_id st ≤ next_id (run calls st)
  ∧ (∀ k, is_Some (chat_sessions (run calls st) !! k) →
          is_Some (chat_sessions st !! k) ∨ next_id st ≤ k < next_id (run calls st)).
Proof.
  destruct (run_primitive calls st) as (prims & Hprims & _ & ->).
  by apply run_primitive_inv.
Qed.

Lemma reachable_no_orphans st : reachable st → no_orphans st.
Proof.
  intros [calls ->]. apply run_inv. by intros m ?%elem_of_nil.
Qed.

Lemma reachable_ids_drawn st : reachable st → ids_drawn st.
Proof.
  intros [calls ->] k Hk.
  destruct (run_inv calls empty) as (_ & _ & Hkeys).
  destruct (Hkeys k Hk) as [Hempty|?]; [|lia].
  simpl in Hempty. rewrite lookup_empty in Hempty. by destruct Hempty.
Qed.

(** *** Turns without a session *)

(** C4.  A turn sent without a session identifier persists nothing: the
    store is the one before the call, so [listSessions] returns the same
    sessions and the message table has no new row; the caller still gets
    the outcome of the completion, which is the first choice's reply when
    the upstream returned one. *)
Theorem sendTurn_without_session upstream t_user t_reply modelId prior text image st :
  let result :=
    sendTurn upstream t_user t_reply modelId (PriorMessages prior) text image st in
  let outgoing := prior ++ [new_turn text image] in
  result.1 = st
  ∧ listSessions result.1 = listSessions st
  ∧ messages result.1 = messages st
  ∧ result.2 = respond (upstream modelId outgoing)
  ∧ ∀ c choice rest,
      upstream modelId outgoing = Completed c →
      choices c = choice :: rest →
      result.2 = Ok {| reply := message_content choice;
                       model_used := model c;
                       usage_of := usage c |}.
Proof.
  simpl. repeat split; try done.
  intros c choice rest Hup Hchoices. unfold sendTurn. simpl.
  unfold respond. by rewrite Hup, Hchoices.
Qed.

(** *** Empty choice lists *)

Lemma assemble_session_exists sessionId text image st outgoing :
  assemble (InSession sessionId) text image st = Ok outgoing →
  is_Some (chat_sessions st !! sessionId).
Proof.
  unfold assemble, getSession.
  destruct (chat_sessions st !! sessionId); [by eexists|done].
Qed.

(** A successful turn always carries the reply of a choice the upstream
    returned. *)
Lemma sendTurn_success_has_choice upstream t_user t_reply modelId ctx text image st r :
  (sendTurn upstream t_user t_reply modelId ctx text image st).2 = Ok r →
  ∃ outgoing c choice rest,
    assemble ctx text image st = Ok outgoing
    ∧ upstream modelId outgoing = Completed c
    ∧ choices c = choice :: rest
    ∧ reply r = message_content choice.
Proof.
  unfold sendTurn.
  destruct (assemble ctx text image st) as [outgoing|e]; [|done].
  assert (∀ r, respond (upstream modelId outgoing) = Ok r →
               ∃ c choice rest, upstream modelId outgoing = Completed c
                 ∧ choices c = choice :: rest
                 ∧ reply r = message_content choice) as Hrespond.
  { intros r'. unfold respond.
    destruct (upstream modelId outgoing) as [c| |]; [|done..].
    destruct (choices c) as [|choice rest] eqn:Hc; [done|].
    intros [= <-]. by exists c, choice, rest. }
  destruct ctx as [prior|sessionId]; simpl.
  - intros Hr. destruct (Hrespond r Hr) as (c & choice & rest & ?).
    by exists outgoing, c, choice, rest.
  - destruct (appendMessage t_user _ _ _ _ _ st) as [[st1 m1]|e]; [|done].
    destruct (respond (upstream modelId outgoing)) as [r'|e] eqn:Hr'; [|done].
    destruct (appendMessage t_reply _ _ _ _ _ st1) as [[st2 m2]|e]; [|done].
    simpl. intros [= <-].
    destruct (Hrespond r' eq_refl) as (c & choice & rest & ?).
    by exists outgoing, c, choice, rest.
Qed.

(** C5.  When the completion call succeeds with an empty list of choices,
    the turn fails with [UpstreamRejected]; it is not a success of any
    kind. *)
Theorem sendTurn_zero_choices upstream t_user t_reply modelId ctx text image st
    outgoing c :
  assemble ctx text image st = Ok outgoing →
  upstream modelId outgoing = Completed c →
  choices c = [] →
  (sendTurn upstream t_user t_reply modelId ctx text image st).2
  = Err UpstreamRejected
  ∧ ∀ r, (sendTurn upstream t_user t_reply modelId ctx text image st).2 ≠ Ok r.
Proof.
  intros Hassemble Hup Hchoices.
  assert ((sendTurn upstream t_user t_reply modelId ctx text image st).2
          = Err UpstreamRejected) as Hrejected.
  { unfold sendTurn. rewrite Hassemble.
    assert (respond (upstream modelId outgoing) = Err UpstreamRejected) as Hr.
    { unfold respond. by rewrite Hup, Hchoices. }
    destruct ctx as [prior|sessionId]; [done|].
    destruct (appendMessage_Ok t_user sessionId "user" text image None st)
      as (st1 & m1 & -> & _); [by eapply assemble_session_exists|].
    by rewrite Hr. }
  split; [done|]. intros r Hr. by rewrite Hrejected in Hr.
Qed.

(** *** Cascade delete *)

Lemma deleteSession_Ok id st st' :
  deleteSession id st = Ok st' →
  is_Some (chat_sessions st !! id)
  ∧ chat_sessions st' !! id = None
  ∧ messages_of id st' = []
  ∧ next_id st' = next_id st.
Proof.
  unfold deleteSession. destruct (chat_sessions st !! id) as [s|]; [|done].
  intros [= <-]. split; [by eexists|]. split; [apply lookup_delete_eq|].
  split; [|done]. unfold messages_of. simpl.
  induction (messages st) as [|m l IH]; [done|].
  rewrite (filter_cons (λ m, Message.session_id m ≠ id)).
  destruct (decide (Message.session_id m ≠ id)) as [Hne|Heq]; [|done].
  by rewrite filter_cons_False.
Qed.

(** C6.  In every reachable state of the store no message refers to a
    session that does not exist; and once [deleteSession id] has succeeded,
    none of the session's messages is left and, whatever calls follow,
    [getSession id] and [appendMessage id] fail with [NotFound]. *)
Theorem deleteSession_cascade st :
  reachable st →
  no_orphans st
  ∧ ∀ id st',
      deleteSession id st = Ok st' →
      messages_of id st' = []
      ∧ ∀ calls,
          getSession id (run calls st') = Err NotFound
          ∧ ∀ now role content imageRef metadata,
              appendMessage now id role content imageRef metadata (run calls st')
              = Err NotFound.
Proof.
  intros Hreach. split; [by apply reachable_no_orphans|].
  intros id st' Hdel.
  destruct (deleteSession_Ok id st st' Hdel) as (Hin & Hgone & Hmsgs & Hnext).
  split; [done|]. intros calls.
  assert (chat_sessions (run calls st') !! id = None) as Hnone.
  { apply eq_None_not_Some. intros Hsome.
    destruct (run_inv calls st') as (_ & _ & Hkeys).
    destruct (Hkeys id Hsome) as [Hback|Hfresh].
    - rewrite Hgone in Hback. by destruct Hback.
    - apply (reachable_ids_drawn st Hreach) in Hin. lia. }
  split; [by apply getSession_NotFound|].
  intros. by apply appendMessage_NotFound.
Qed.

(** *** Message order *)

Lemma messages_of_snoc sid st m :
  filter (λ m, Message.session_id m = sid) (messages st ++ [m])
  = messages_of sid st ++ (if decide (Message.session_id m = sid) then [m] else []).
Proof.
  unfold messages_of. by rewrite filter_app.
Qed.

(** C9.  After any finite sequence of [appendMessage] calls, [getSession]
    returns the session's earlier messages followed by the messages appended
    to it, in the order of the calls; the timestamps the calls carry play no
    part, so equal ones change nothing. *)
Theorem getSession_append_order appends st sid s history :
  getSession sid st = Ok (s, history) →
  ∃ s' created,
    getSession sid (run (append_call <$> appends) st) = Ok (s', history ++ created)
    ∧ appended <$> created = filter (λ a, to_session a = sid) appends.
Proof.
  revert st s history.
  induction appends as [|a appends IH]; intros st s history Hget.
  { exists s, []. by rewrite app_nil_r. }
  apply getSession_Ok in Hget as [Hs ->].
  rewrite fmap_cons. simpl.
  destruct (chat_sessions st !! to_session a) as [sa|] eqn:Hsa.
  - destruct (appendMessage_Ok (at_time a) (to_session a) (with_role a)
                (with_content a) (with_image a) (with_metadata a) st)
      as (st1 & m & Happ & Hmsgs & _ & Hkeys & Hm); [by eexists|].
    rewrite Happ.
    assert (is_Some (chat_sessions st1 !! sid)) as [s1 Hs1].
    { apply Hkeys. by eexists. }
    destruct (IH st1 s1 (messages_of sid st1)) as (s' & created & Hget' & Hcreated).
    { by apply getSession_Ok. }
    assert (Message.session_id m = to_session a) as Hsid.
    { by apply (f_equal to_session) in Hm. }
    assert (appended m = a) as Hma by (by destruct a).
    unfold messages_of at 1 in Hget'. rewrite Hmsgs, messages_of_snoc, Hsid in Hget'.
    rewrite (filter_cons (λ a, to_session a = sid)).
    destruct (decide (to_session a = sid)) as [Heq|Hne].
    + exists s', (m :: created). rewrite <- app_assoc in Hget'.
      split; [done|]. by rewrite fmap_cons, Hma, Hcreated.
    + exists s', created. rewrite app_nil_r in Hget'. done.
  - rewrite appendMessage_NotFound by done.
    destruct (IH st s (messages_of sid st)) as (s' & created & Hget' & Hcreated).
    { by apply getSession_Ok. }
    exists s', created. split; [done|].
    rewrite filter_cons_False; [done|]. intros Heq. congruence.
Qed.

(** *** Creation time *)

Lemma StronglySorted_sublist {A} (R : relation A) (l1 l2 : list A) :
  l1 `sublist_of` l2 → StronglySorted R l2 → StronglySorted R l1.
Proof.
  induction 1 as [|x l1 l2 Hsub IH|x l1 l2 Hsub IH]; intros Hsorted.
  - constructor.
  - apply StronglySorted_cons in Hsorted as [Hall Hsorted].
    apply StronglySorted_cons. split; [|by apply IH].
    rewrite Forall_forall in *. intros y Hy. apply Hall.
    by eapply elem_of_sublist.
  - apply StronglySorted_cons in Hsorted as [_ Hsorted]. by apply IH.
Qed.

(** A primitive call removes rows, or adds one row stamped with the clock
    reading it carries. *)
Lemma exec_primitive_messages st c :
  primitive c →
  messages (exec st c) `sublist_of` messages st
  ∨ ∃ m, call_times c = [Message.timestamp m]
      ∧ messages (exec st c) = messages st ++ [m].
Proof.
  destruct c as [now modelId title|now id newTitle|id
                |now sid role content imageRef metadata|]; simpl; [| | | |done];
    intros _.
  - by left.
  - left. unfold updateTitle. by destruct (chat_sessions st !! id).
  - left. unfold deleteSession. destruct (chat_sessions st !! id); [|done].
    apply sublist_filter.
  - unfold appendMessage. destruct (chat_sessions st !! sid); [|by left].
    right. eexists. split; [|reflexivity]. reflexivity.
Qed.

Lemma run_primitive_chronological prims st :
  Forall primitive prims →
  StronglySorted Z.le (prims ≫= call_times) →
  chronological (messages st) →
  (∀ m t, m ∈ messages st → t ∈ prims ≫= call_times →
          (Message.timestamp m ≤ t)%Z) →
  chronological (messages (run prims st)).
Proof.
  intros Hprims. revert st.
  induction Hprims as [|c prims Hc _ IH]; intros st Htimes Hchron Hbound;
    [done|].
  rewrite bind_cons in Htimes, Hbound.
  apply StronglySorted_app in Htimes as (Hlater & _ & Hrest).
  simpl. apply IH; [done|..].
  - destruct (exec_primitive_messages st c Hc) as [Hsub|(m & Hm & ->)].
    + by eapply StronglySorted_sublist.
    + apply StronglySorted_app_2; [|done|by repeat constructor].
      intros m1 m2 Hm1 ->%list_elem_of_singleton.
      apply Hbound; [done|]. rewrite Hm. apply elem_of_app. left.
      apply list_elem_of_here.
  - intros m t Hin Ht.
    destruct (exec_primitive_messages st c Hc) as [Hsub|(m' & Hm' & Heq)].
    + apply Hbound; [by eapply elem_of_sublist|]. apply elem_of_app. by right.
    + rewrite Heq in Hin. apply elem_of_app in Hin as [Hin| ->%list_elem_of_singleton].
      * apply Hbound; [done|]. apply elem_of_app. by right.
      * apply Hlater; [|done]. rewrite Hm'. apply list_elem_of_here.
Qed.

(** When the clock never goes back, the append order is the order of
    creation time: [getSession] returns the messages sorted by timestamp. *)
Lemma getSession_chronological calls sid s history :
  clock_monotone calls →
  getSession sid (run calls empty) = Ok (s, history) →
  chronological history.
Proof.
  intros Hclock [_ ->]%getSession_Ok.
  destruct (run_primitive calls empty) as (prims & Hprims & Hsub & ->).
  eapply StronglySorted_sublist; [apply sublist_filter|].
  apply run_primitive_chronological; [done|..].
  - by eapply StronglySorted_sublist.
  - constructor.
  - by intros m t ?%elem_of_nil.
Qed.

(** Ordering the returned messages by creation time would then change
    nothing, equal timestamps included: the two readings of "ordered"
    agree. *)
Lemma sort_by_time_chronological ms :
  chronological ms → sort_by_time ms = ms.
Proof.
  induction 1 as [|m ms _ IH Hall]; [done|].
  simpl. rewrite IH. destruct Hall as [|m' ms' Hle _]; [done|].
  simpl. destruct (decide (Message.timestamp m' < Message.timestamp m)%Z); [lia|done].
Qed.

Lemma getSession_by_time calls sid s history :
  clock_monotone calls →
  getSession sid (run calls empty) = Ok (s, history) →
  sort_by_time history = history.
Proof.
  intros Hclock Hget. apply sort_by_time_chronological.
  by eapply getSession_chronological.
Qed.

End StoreProperties.

(** ** The API boundary *)

Section BoundaryProperties.
Import Js ApiService.

Lemma transformMessage_object props :
  transformMessage (VObj props)
  = Ok (VObj [ ("id", field "id" props);
               ("role", field "role" props);
               ("content", field "content" props);
               ("timestamp", VDate (field "timestamp" props));
               ("imageUrl", field "image_url" props) ]).
Proof. reflexivity. Qed.

Lemma mapM_transformMessage msgs :
  ∃ outs, mapM transformMessage (VObj <$> msgs) = Ok outs
    ∧ Forall2 (λ msg o, transformMessage (VObj msg) = Ok o) msgs outs.
Proof.
  induction msgs as [|msg msgs (outs & Hm & Hall)]; [by exists []|].
  eexists (_ :: outs). rewrite fmap_cons. simpl. rewrite Hm. simpl.
  split; [done|]. by constructor.
Qed.

Lemma field_own key props v : own key props = Some v → field key props = v.
Proof. unfold field. by intros ->. Qed.

(** C8, as the code has it.  A session retrieved through [transformSession]
    keeps [id] and [title], has [model_id] under the name [modelId], and has
    [created_at] and [updated_at] under the names [createdAt] and
    [updatedAt], each wrapped in a [Date] built from the transported value;
    each of its messages keeps [id], [role] and [content], has [timestamp]
    wrapped in a [Date], and has [image_url] under the name [imageUrl]: an
    image reference string comes back as the identical string. *)
Theorem transformSession_renames props msgs :
  own "messages" props = Some (VArr (VObj <$> msgs)) →
  ∃ out outs,
    transformSession (VObj props) = Ok out
    ∧ get out "id" = Ok (field "id" props)
    ∧ get out "title" = Ok (field "title" props)
    ∧ get out "modelId" = Ok (field "model_id" props)
    ∧ get out "createdAt" = Ok (VDate (field "created_at" props))
    ∧ get out "updatedAt" = Ok (VDate (field "updated_at" props))
    ∧ get out "messages" = Ok (VArr outs)
    ∧ Forall2 (λ msg o,
                 get o "id" = Ok (field "id" msg)
                 ∧ get o "role" = Ok (field "role" msg)
                 ∧ get o "content" = Ok (field "content" msg)
                 ∧ get o "timestamp" = Ok (VDate (field "timestamp" msg))
                 ∧ get o "imageUrl" = Ok (field "image_url" msg)
                 ∧ ∀ s, own "image_url" msg = Some (VStr s) →
                        get o "imageUrl" = Ok (VStr s))
              msgs outs.
Proof.
  intros Hmsgs.
  destruct (mapM_transformMessage msgs) as (outs & Hm & Hall).
  eexists _, outs. split.
  { unfold transformSession. simpl. rewrite (field_own _ _ _ Hmsgs). simpl.
    rewrite Hm. reflexivity. }
  repeat (split; [reflexivity|]).
  eapply Forall2_impl; [apply Hall|].
  intros msg o Ho. cbv beta in Ho.
  rewrite transformMessage_object in Ho. injection Ho as <-.
  repeat (split; [reflexivity|]).
  intros s Hs. simpl. by rewrite (field_own _ _ _ Hs).
Qed.

(** C8, as stated, fails on the time fields: the image reference of the
    sample message comes back unchanged, its [timestamp] does not (a string
    went in, a [Date] comes out). *)
Lemma transformMessage_changes_timestamp :
  ∃ out,
    transformMessage Samples.server_message = Ok out
    ∧ get out "imageUrl" = get Samples.server_message "image_url"
    ∧ get out "timestamp" ≠ get Samples.server_message "timestamp".
Proof.
  eexists. split; [reflexivity|]. split; [reflexivity|]. intros [=].
Qed.

(** C10.  A session object without a [messages] property is transformed
    without error into a session whose [messages] is the empty array, for
    which the sidebar shows a count of zero. *)
Theorem transformSession_without_messages props :
  own "messages" props = None →
  ∃ out,
    transformSession (VObj props) = Ok out
    ∧ get out "messages" = Ok (VArr [])
    ∧ messageCount out = Ok (VNum 0).
Proof.
  intros Hnone.
  assert (field "messages" props = VUndefined) as Hfield.
  { unfold field. by rewrite Hnone. }
  eexists. split.
  { unfold transformSession. simpl. rewrite Hfield. reflexivity. }
  split; reflexivity.
Qed.

(** The same holds when the property is present and falsy ([null]). *)
Lemma transformSession_falsy_messages props :
  truthy (field "messages" props) = false →
  ∃ out,
    transformSession (VObj props) = Ok out
    ∧ get out "messages" = Ok (VArr []).
Proof.
  intros Hfalsy. eexists. split.
  { unfold transformSession. simpl. rewrite Hfalsy. reflexivity. }
  reflexivity.
Qed.

(** A truthy [messages] that is not an array makes the transformation
    throw. *)
Lemma transformSession_messages_not_array :
  transformSession (VObj [("messages", VStr "none")]) = Err TypeError.
Proof. reflexivity. Qed.

End BoundaryProperties.

(** ** String trimming *)

Section TrimProperties.
Import Js.

Lemma strip_prefix_length p s rest :
  strip_prefix p s = Some rest →
  String.length s = String.length p + String.length rest.
Proof.
  revert s. induction p as [|a p IH]; intros s; simpl.
  { by intros [= ->]. }
  destruct s as [|b s]; [done|].
  destruct (decide (a = b)); [|done]. intros Hrest. simpl.
  by rewrite (IH s Hrest).
Qed.

Lemma strip_space_shorter spaces s rest :
  Forall (λ w, w ≠ EmptyString) spaces →
  strip_space spaces s = Some rest →
  String.length rest < String.length s.
Proof.
  intros Hspaces Hstrip. unfold strip_space in Hstrip.
  apply head_Some_elem_of, list_elem_of_omap in Hstrip as (w & Hw & Hrest).
  rewrite Forall_forall in Hspaces. specialize (Hspaces w Hw).
  apply strip_prefix_length in Hrest. destruct w; [done|]. simpl in Hrest. lia.
Qed.

(** The fuel [trim] gives is enough: nothing is left to strip. *)
Lemma strip_spaces_done fuel spaces s :
  Forall (λ w, w ≠ EmptyString) spaces →
  String.length s ≤ fuel →
  strip_space spaces (strip_spaces fuel spaces s) = None.
Proof.
  intros Hspaces. revert s. induction fuel as [|fuel IH]; intros s Hlen; simpl.
  - destruct (strip_space spaces s) as [rest|] eqn:Hstrip; [|done].
    apply strip_space_shorter in Hstrip; [lia|done].
  - destruct (strip_space spaces s) as [rest|] eqn:Hstrip; [|done].
    apply IH. apply strip_space_shorter in Hstrip; [lia|done].
Qed.

Lemma white_space_nonempty : Forall (λ w, w ≠ EmptyString) white_space.
Proof.
  unfold white_space. cbn.
  repeat (constructor; [discriminate|]). constructor.
Qed.

Lemma trimStart_done s : strip_space white_space (trimStart s) = None.
Proof. apply strip_spaces_done; [apply white_space_nonempty|done]. Qed.

Lemma string_rev_length s : String.length (String.rev s) = String.length s.
Proof.
  unfold String.rev.
  assert (∀ s1 s2, String.length (String.rev_app s1 s2)
                   = String.length s1 + String.length s2) as Hrev.
  { induction s1 as [|a s1 IH]; intros s2; simpl; [done|].
    rewrite IH. simpl. lia. }
  rewrite Hrev. simpl. lia.
Qed.

Lemma reversed_white_space_nonempty :
  Forall (λ w, w ≠ EmptyString) (String.rev <$> white_space).
Proof.
  unfold white_space. cbn.
  repeat (constructor; [discriminate|]). constructor.
Qed.

Lemma trimEnd_done s :
  ∃ r, trimEnd s = String.rev r
    ∧ strip_space (String.rev <$> white_space) r = None.
Proof.
  eexists. split; [reflexivity|].
  apply strip_spaces_done; [apply reversed_white_space_nonempty|].
  by rewrite string_rev_length.
Qed.

End TrimProperties.

(** ** The message input *)

Section InputProperties.
Import Types.

Context {File : Type} (fileToBase64 : File → option string).

Lemma trim_empty : Js.trim EmptyString = EmptyString.
Proof. reflexivity. Qed.

Lemma nothing_to_send_spec (st : ChatInput.State File) :
  ChatInput.nothing_to_send st = true
  ↔ Js.trim (ChatInput.message st) = EmptyString ∧ ChatInput.imageFile st = None.
Proof.
  unfold ChatInput.nothing_to_send.
  rewrite andb_true_iff, bool_decide_eq_true.
  destruct (ChatInput.imageFile st) as [file|]; split; intros [Htext Himage];
    done.
Qed.

(** C7, as the code has it.  [handleSubmit] sends nothing exactly when the
    trimmed text is empty and no image is attached.  What it sends is the
    text as typed, with the attached image if any; without an image the
    text is not empty.  The user message built from it carries that text
    as its content, and an image reference exactly when a file is
    attached. *)
Theorem handleSubmit_sends (st : ChatInput.State File) :
  ((ChatInput.handleSubmit st).1 = None
   ↔ Js.trim (ChatInput.message st) = EmptyString ∧ ChatInput.imageFile st = None)
  ∧ (∀ content imageFile,
       (ChatInput.handleSubmit st).1 = Some (content, imageFile) →
       content = ChatInput.message st
       ∧ imageFile = ChatInput.imageFile st
       ∧ (imageFile = None → content ≠ EmptyString))
  ∧ (∀ clock content imageFile um,
       App.userMessage File fileToBase64 clock content imageFile = Some um →
       Message.role um = user
       ∧ Message.content um = content
       ∧ (Message.imageUrl um = None ↔ imageFile = None)).
Proof.
  split; [|split].
  - rewrite <- nothing_to_send_spec. unfold ChatInput.handleSubmit.
    by destruct (ChatInput.nothing_to_send st).
  - intros content imageFile. unfold ChatInput.handleSubmit.
    destruct (ChatInput.nothing_to_send st) eqn:Hnothing; [done|].
    simpl. intros [= <- <-]. split; [done|]. split; [done|].
    intros Hnone Hempty.
    assert (ChatInput.nothing_to_send st = true) as Hyes; [|congruence].
    apply nothing_to_send_spec. by rewrite Hempty.
  - intros clock content imageFile um. unfold App.userMessage.
    destruct imageFile as [file|].
    + destruct (fileToBase64 file); [|done]. simpl. intros [= <-]. simpl.
      split; [done|]. split; [done|]. split; intros ?; discriminate.
    + intros [= <-]. by simpl.
Qed.

End InputProperties.

(** C7, as stated, fails: an image selected with the text field left empty
    is submitted, and the turn shown and sent has an image and no text. *)
Lemma submit_image_without_text :
  let input :=
    ChatInput.handleImageSelect string Some Samples.image ChatInput.initial in
  ∃ st calls input' turn reply request,
    App.submit string Some Samples.api Samples.clock input Samples.state
    = ((st, calls), input')
    ∧ Types.ChatSession.messages <$> App.currentSession st = Some [turn; reply]
    ∧ Types.Message.role turn = Types.user
    ∧ Types.Message.content turn = EmptyString
    ∧ Types.Message.imageUrl turn = Some Samples.image
    ∧ App.sent calls = [request]
    ∧ last (Types.SendMessageRequest.messages request)
      = Some {| Types.RequestMessage.role := "user";
                Types.RequestMessage.content :=
                  Types.ContentParts
                    [ {| Types.type := "text";
                         Types.text := Some EmptyString;
                         Types.image_url := None |};
                      {| Types.type := "image_url";
                         Types.text := None;
                         Types.image_url :=
                           Some {| Types.url := Samples.image |} |} ] |}.
Proof.
  vm_compute. do 6 eexists. repeat split; reflexivity.
Qed.

(** ** The properties on the sample data *)

Section Witnesses.
Import ConversationStore ChatOrchestrator.

Lemma mark_vision_retained_witness :
  Samples.vision_model
    ∈ ModelCatalog.free_models [Samples.vision_model; Samples.paid_model]
  ∧ ModelCatalog.declares_image Samples.vision_model
  ∧ ModelCatalog.name (ModelCatalog.mark_vision Samples.vision_model).1
    = "📷 Qwen 2 VL 7B Instruct (free)"
  ∧ ModelCatalog.marked_once
      (ModelCatalog.name (ModelCatalog.mark_vision Samples.vision_model).1)
    = true.
Proof.
  assert (Samples.vision_model
            ∈ ModelCatalog.free_models [Samples.vision_model; Samples.paid_model])
    as Hretained by apply list_elem_of_here.
  assert (ModelCatalog.declares_image Samples.vision_model) as Hdeclares.
  { eexists _, _. split; [reflexivity|]. split; [reflexivity|].
    apply list_elem_of_further, list_elem_of_here. }
  destruct (mark_vision_retained _ _ Hretained) as [Hmarked _].
  destruct (Hmarked Hdeclares) as [Hreturned Honce].
  split; [exact Hretained|]. split; [exact Hdeclares|].
  split; [by rewrite Hreturned|exact Honce].
Defined.

Lemma handleSendMessage_outgoing_witness :
  App.resolvedSession Samples.api Samples.state = Some Samples.session
  ∧ ∃ request newContent,
      App.sent (App.handleSendMessage string Some Samples.api Samples.clock
                  "What is in this image?" (Some Samples.image) Samples.state).2
      = [request]
      ∧ Types.SendMessageRequest.messages request
        = [ {| Types.RequestMessage.role := "user";
               Types.RequestMessage.content := newContent |} ]
      ∧ ∃ base64, Some Samples.image = Some base64
          ∧ newContent
            = Types.ContentParts
                [ {| Types.type := "text";
                     Types.text := Some "What is in this image?";
                     Types.image_url := None |};
                  {| Types.type := "image_url";
                     Types.text := None;
                     Types.image_url := Some {| Types.url := base64 |} |} ].
Proof.
  split; [reflexivity|].
  apply (handleSendMessage_outgoing (File := string) Some Samples.api Samples.clock
           "What is in this image?" (Some Samples.image) Samples.state
           Samples.session).
  - reflexivity.
  - intros file _. by exists file.
Defined.

Lemma sendTurn_zero_choices_witness :
  let outcome :=
    (sendTurn Samples.no_choice 13 14 "m1" (InSession 0) "again" None
              Samples.scenario_b).2 in
  outcome = Err UpstreamRejected ∧ ∀ r, outcome ≠ Ok r.
Proof.
  simpl. eapply sendTurn_zero_choices; reflexivity.
Defined.

Lemma deleteSession_cascade_witness :
  reachable Samples.scenario_b
  ∧ length (messages_of 0 Samples.scenario_b) = 2
  ∧ ∃ st',
      deleteSession 0 Samples.scenario_b = Ok st'
      ∧ messages_of 0 st' = []
      ∧ getSession 0 (run [CreateSession 30 "m1" None] st') = Err NotFound
      ∧ appendMessage 31 0 "user" "anyone there?" None None
                      (run [CreateSession 30 "m1" None] st')
        = Err NotFound.
Proof.
  assert (reachable Samples.scenario_b) as Hreach by (eexists; reflexivity).
  split; [exact Hreach|]. split; [reflexivity|].
  destruct (deleteSession_cascade Samples.scenario_b Hreach) as [_ Hdel].
  eexists. split; [reflexivity|].
  edestruct (Hdel 0) as [Hnone Hafter]; [reflexivity|].
  split; [exact Hnone|].
  destruct (Hafter [CreateSession 30 "m1" None]) as [Hget Happend].
  split; [exact Hget|apply Happend].
Defined.

Lemma getSession_append_order_witness :
  ∃ s' created,
    getSession 0 (run (append_call <$> Samples.same_time_appends) Samples.scenario_b)
    = Ok (s', messages_of 0 Samples.scenario_b ++ created)
    ∧ appended <$> created
      = filter (λ a, to_session a = 0) Samples.same_time_appends.
Proof.
  eapply getSession_append_order. reflexivity.
Defined.

Lemma transformSession_renames_witness :
  Js.own "messages" Samples.server_session
  = Some (Js.VArr (Js.VObj <$> [Samples.server_message_props]))
  ∧ ∃ out outs,
      ApiService.transformSession (Js.VObj Samples.server_session) = Ok out
      ∧ Js.get out "id" = Ok (Js.field "id" Samples.server_session)
      ∧ Js.get out "title" = Ok (Js.field "title" Samples.server_session)
      ∧ Js.get out "modelId" = Ok (Js.field "model_id" Samples.server_session)
      ∧ Js.get out "createdAt" = Ok (Js.VDate (Js.field "created_at" Samples.server_session))
      ∧ Js.get out "updatedAt" = Ok (Js.VDate (Js.field "updated_at" Samples.server_session))
      ∧ Js.get out "messages" = Ok (Js.VArr outs)
      ∧ Forall2 (λ msg o,
                   Js.get o "id" = Ok (Js.field "id" msg)
                   ∧ Js.get o "role" = Ok (Js.field "role" msg)
                   ∧ Js.get o "content" = Ok (Js.field "content" msg)
                   ∧ Js.get o "timestamp" = Ok (Js.VDate (Js.field "timestamp" msg))
                   ∧ Js.get o "imageUrl" = Ok (Js.field "image_url" msg)
                   ∧ ∀ s, Js.own "image_url" msg = Some (Js.VStr s) →
                          Js.get o "imageUrl" = Ok (Js.VStr s))
                [Samples.server_message_props] outs.
Proof.
  split; [reflexivity|].
  apply (transformSession_renames Samples.server_session
           [Samples.server_message_props]).
  reflexivity.
Defined.

Lemma transformSession_without_messages_witness :
  Js.own "messages" Samples.server_summary = None
  ∧ ∃ out,
      ApiService.transformSession (Js.VObj Samples.server_summary) = Ok out
      ∧ Js.get out "messages" = Ok (Js.VArr [])
      ∧ ApiService.messageCount out = Ok (Js.VNum 0).
Proof.
  split; [reflexivity|].
  apply (transformSession_without_messages Samples.server_summary).
  reflexivity.
Defined.

End Witnesses.

(** * Further properties of the code *)

(** ** The API client on arbitrary response bodies *)

Section ClientProperties.
Import Js ApiService.

(** [mapM] over results succeeds exactly when every element does, and then
    lists the results in order. *)
Lemma mapM_result_Ok {E A B} (f : A → result E B) (xs : list A) (ys : list B) :
  mapM f xs = Ok ys ↔ Forall2 (λ x y, f x = Ok y) xs ys.
Proof.
  revert ys. induction xs as [|x xs IH]; intros ys; simpl.
  - split; [by intros [= <-]; constructor|by intros ->%Forall2_nil_inv_l].
  - destruct (f x) as [y|e] eqn:Hx; simpl.
    + destruct (mapM f xs) as [ys'|e] eqn:Hxs; simpl.
      * split.
        -- unfold mret, result_ret.
           intros [= <-]. constructor; [done|]. by apply IH.
        -- intros (y' & ys'' & Hy & Hys & ->)%Forall2_cons_inv_l.
           apply IH in Hys. unfold mret, result_ret. congruence.
      * split; [done|].
        intros (y' & ys'' & Hy & Hys & ->)%Forall2_cons_inv_l.
        apply IH in Hys. congruence.
    + split; [done|].
      intros (y' & ys'' & Hy & Hys & ->)%Forall2_cons_inv_l. congruence.
Qed.

(** [transformMessage] throws on [undefined] and [null] and on nothing
    else. *)
Theorem transformMessage_throws_iff msg :
  (transformMessage msg = Err TypeError ↔ msg = VUndefined ∨ msg = VNull)
  ∧ ((∃ out, transformMessage msg = Ok out) ↔ msg ≠ VUndefined ∧ msg ≠ VNull).
Proof.
  destruct msg; simpl; (split; split);
    try (intros [? | ?]; discriminate); try discriminate;
    try (intros [out ?]; discriminate);
    try (intros [? ?]; done); try (intros _; by eauto);
    try (intros _; split; discriminate); try done.
Qed.

(** The object [transformMessage] builds has the five properties [id],
    [role], [content], [timestamp], [imageUrl] and no other: whatever else
    the server sent with the message ([session_id], [extra_metadata], the
    snake-case [image_url]) reads as [undefined] on the result. *)
Theorem transformMessage_drops_other_keys msg out key :
  transformMessage msg = Ok out →
  key ∉ ["id"; "role"; "content"; "timestamp"; "imageUrl"] →
  get out key = Ok VUndefined.
Proof.
  intros Hout Hkey.
  assert (∃ a b c d e,
            out = VObj [("id", a); ("role", b); ("content", c);
                        ("timestamp", d); ("imageUrl", e)])
    as (a & b & c & d & e & ->).
  { destruct msg; simpl in Hout; try discriminate;
      injection Hout as <-; by eexists _, _, _, _, _. }
  simpl. unfold field. simpl.
  repeat (destruct (decide _) as [<-|_];
          [exfalso; apply Hkey; repeat constructor|]).
  done.
Qed.

Lemma get_Ok_not_nullish v key w :
  get v key = Ok w → v ≠ VUndefined ∧ v ≠ VNull.
Proof. by destruct v. Qed.

Lemma transformMessage_Ok_iff msg :
  (∃ out, transformMessage msg = Ok out) ↔ msg ≠ VUndefined ∧ msg ≠ VNull.
Proof.
  destruct msg; simpl; split;
    try (intros [out ?]; discriminate); try (intros [? ?]; done);
    try (intros _; by eauto); try (intros _; split; discriminate).
Qed.

Lemma mapM_transformMessage_Ok_iff msgs :
  (∃ outs, mapM transformMessage msgs = Ok outs)
  ↔ Forall (λ m, m ≠ VUndefined ∧ m ≠ VNull) msgs.
Proof.
  induction msgs as [|m msgs IH].
  - split; [constructor|by exists []].
  - split.
    + intros [outs Houts]. apply mapM_result_Ok in Houts.
      apply Forall2_cons_inv_l in Houts as (o & outs' & Ho & Hrest & ->).
      constructor.
      * apply transformMessage_Ok_iff. by exists o.
      * apply IH. exists outs'. by apply mapM_result_Ok.
    + intros [Hm Hrest]%Forall_cons.
      apply transformMessage_Ok_iff in Hm as [o Ho].
      apply IH in Hrest as [outs Houts].
      exists (o :: outs). apply mapM_result_Ok. constructor; [done|].
      by apply mapM_result_Ok.
Qed.

(** [transformSession] on an object (anything but [undefined] and [null])
    succeeds exactly when its [messages] is falsy or is an array none of
    whose elements is [undefined] or [null]; a truthy [messages] of any
    other kind, or a [null] among the messages, makes it throw. *)
Theorem transformSession_succeeds_iff session messages :
  get session "messages" = Ok messages →
  ((∃ out, transformSession session = Ok out)
   ↔ truthy messages = false
     ∨ ∃ msgs, messages = VArr msgs
         ∧ Forall (λ m, m ≠ VUndefined ∧ m ≠ VNull) msgs).
Proof.
  intros Hmessages.
  assert (∀ key, ∃ w, get session key = Ok w) as Hget.
  { intros key. destruct session; try discriminate; by eexists. }
  unfold transformSession.
  destruct (Hget "id") as [a ->], (Hget "title") as [b ->],
    (Hget "model_id") as [c ->], (Hget "created_at") as [d ->],
    (Hget "updated_at") as [e ->].
  rewrite Hmessages. simpl.
  destruct (truthy messages) eqn:Htruthy.
  - split.
    + intros [out Hout]. right.
      destruct messages as [| | | | |msgs| |]; try discriminate.
      exists msgs. split; [done|]. apply mapM_transformMessage_Ok_iff.
      simpl in Hout. destruct (mapM transformMessage msgs); [by eexists|done].
    + intros [?|(msgs & -> & Hall)]; [done|].
      apply mapM_transformMessage_Ok_iff in Hall as [outs Houts].
      simpl. rewrite Houts. simpl. by eexists.
  - split; [by left|]. intros _. simpl. by eexists.
Qed.

(** Whenever [transformSession] succeeds, the count the sidebar shows for
    the result is the number of messages the server sent, and zero when it
    sent none. *)
Theorem messageCount_transformSession session messages out :
  get session "messages" = Ok messages →
  transformSession session = Ok out →
  messageCount out
  = Ok (VNum match messages with
             | VArr msgs => Z.of_nat (List.length msgs)
             | _ => 0
             end).
Proof.
  intros Hmessages.
  assert (∀ key, ∃ w, get session key = Ok w) as Hget.
  { intros key. destruct session; try discriminate; by eexists. }
  unfold transformSession.
  destruct (Hget "id") as [a ->], (Hget "title") as [b ->],
    (Hget "model_id") as [c ->], (Hget "created_at") as [d ->],
    (Hget "updated_at") as [e ->].
  rewrite Hmessages. simpl.
  destruct (truthy messages) eqn:Htruthy.
  - destruct messages as [| | | | |msgs| |]; try discriminate.
    simpl. destruct (mapM transformMessage msgs) as [outs|] eqn:Houts; [|done].
    simpl. intros [= <-]. simpl. unfold field. simpl.
    apply mapM_result_Ok, Forall2_length in Houts. by rewrite Houts.
  - simpl. intros [= <-].
    destruct messages; try done; simpl in Htruthy; discriminate.
Qed.

(** [getSessions] succeeds exactly on an array body each of whose elements
    [transformSession] accepts, and returns the transformed sessions in the
    order of the body, one for one. *)
Theorem getSessions_Ok_iff data out :
  getSessions data = Ok out
  ↔ ∃ sessions outs,
      data = VArr sessions ∧ out = VArr outs
      ∧ Forall2 (λ s o, transformSession s = Ok o) sessions outs.
Proof.
  unfold getSessions, Js.map. split.
  - destruct data as [| | | | |sessions| |]; try discriminate.
    destruct (mapM transformSession sessions) as [outs|] eqn:Houts; [|done].
    simpl. intros [= <-]. exists sessions, outs.
    split; [done|]. split; [done|]. by apply mapM_result_Ok.
  - intros (sessions & outs & -> & -> & Hall).
    apply mapM_result_Ok in Hall. by rewrite Hall.
Qed.

(** The title [createSession] posts is never empty: an absent or empty
    title is replaced by ["New Chat"], any other title is posted as given. *)
Theorem createSessionBody_title modelId title :
  ∃ posted,
    get (ApiRequests.createSessionBody modelId title) "title" = Ok (VStr posted)
    ∧ posted ≠ EmptyString
    ∧ (∀ t, title = Some t → t ≠ EmptyString → posted = t)
    ∧ (title = None ∨ title = Some EmptyString → posted = "New Chat").
Proof.
  unfold ApiRequests.createSessionBody. eexists. split; [reflexivity|].
  destruct title as [t|]; [destruct (decide (t = EmptyString)) as [->|Hne]|].
  - split; [done|]. split; [by intros t [= <-]|done].
  - split; [done|]. split; [by intros t' [= <-]|].
    intros [?|[= ?]]; done.
  - split; [done|]. split; [done|done].
Qed.

End ClientProperties.

(** ** The message input, further *)

Section InputFurther.

Context {File : Type}.

Lemma strip_space_ascii c s :
  Ascii.is_space c = true →
  Js.strip_space Js.white_space (String c s) = Some s.
Proof.
  destruct c as [[] [] [] [] [] [] [] []]; try discriminate; intros _;
    reflexivity.
Qed.

Lemma trimStart_blank fuel s :
  Text.blank s = true →
  String.length s ≤ fuel →
  Js.strip_spaces fuel Js.white_space s = EmptyString.
Proof.
  revert s. induction fuel as [|fuel IH]; intros [|c s]; simpl; try done.
  - lia.
  - intros [Hc Hs]%andb_true_iff Hlen.
    rewrite (strip_space_ascii c s Hc). apply IH; [done|lia].
Qed.

Lemma trim_blank s : Text.blank s = true → Js.trim s = EmptyString.
Proof.
  intros Hblank. unfold Js.trim, Js.trimStart.
  by rewrite (trimStart_blank _ s Hblank).
Qed.

(** Text made of white space only, with no image attached, cannot be
    sent: the submit button is disabled and [handleSubmit] returns without
    calling [onSendMessage], leaving the input as it is. *)
Theorem blank_text_is_not_sent (st : ChatInput.State File) :
  Text.blank (ChatInput.message st) = true →
  ChatInput.imageFile st = None →
  ChatInput.handleSubmit st = (None, st)
  ∧ ChatInput.submitDisabled false st = true.
Proof.
  intros Hblank Himage.
  assert (ChatInput.nothing_to_send st = true) as Hnothing.
  { unfold ChatInput.nothing_to_send. rewrite Himage, (trim_blank _ Hblank).
    done. }
  unfold ChatInput.handleSubmit, ChatInput.submitDisabled.
  by rewrite Hnothing.
Qed.

(** Submitting twice in a row never sends twice: whatever the input, the
    second [handleSubmit] calls nothing. *)
Theorem handleSubmit_twice (st : ChatInput.State File) :
  (ChatInput.handleSubmit (ChatInput.handleSubmit st).2).1 = None.
Proof.
  unfold ChatInput.handleSubmit at 2.
  destruct (ChatInput.nothing_to_send st) eqn:Hnothing; simpl.
  - unfold ChatInput.handleSubmit. by rewrite Hnothing.
  - reflexivity.
Qed.

End InputFurther.

(** ** Sending a turn, further *)

Section SendFurther.
Import Types App.

Context {File : Type} (fileToBase64 : File → option string) (api : Api).

(** What [handleSendMessage] does once the session is resolved and the
    user message built: the state and the calls of the resolution, then the
    exchange on the state showing the user message. *)
Lemma handleSendMessage_resolved clock content imageFile st0 session um :
  resolvedSession api st0 = Some session →
  userMessage File fileToBase64 clock content imageFile = Some um →
  ∃ st1 calls1,
    sent calls1 = []
    ∧ (CallGetSessions ∉ calls1)
    ∧ handleSendMessage File fileToBase64 api clock content imageFile st0
      = (setIsLoading false
           (exchange File fileToBase64 api clock st0
              (setError None (setIsLoading true
                 (setCurrentSession (Some (withMessage session um)) st1)))
              session (withMessage session um) content imageFile).1,
         calls1 ++ (exchange File fileToBase64 api clock st0
              (setError None (setIsLoading true
                 (setCurrentSession (Some (withMessage session um)) st1)))
              session (withMessage session um) content imageFile).2).
Proof.
  intros Hres Hum. unfold handleSendMessage, resolvedSession in *.
  destruct (currentSession st0) as [current|].
  - simplify_eq. exists st0, []. split; [done|]. split; [by intros ?%elem_of_nil|].
    rewrite Hum. by destruct (exchange _ _ _ _ _ _ _ _ _ _).
  - unfold handleNewChat in *.
    destruct (decide (selectedModel st0 = EmptyString)); [done|].
    destruct (createSession api _ _) as [created|]; [|done].
    simpl in Hres. simplify_eq.
    exists (setCurrentSession (Some session)
              (setSessions (session :: sessions st0) (setError None st0))),
           [CallCreateSession (selectedModel st0)
              ("Chat " +:+ pretty (Z.of_nat (length (sessions st0)) + 1)%Z)].
    split; [done|]. split.
    + intros [[=]|?%elem_of_nil]%elem_of_cons; done.
    + simpl. rewrite Hum. by destruct (exchange _ _ _ _ _ _ _ _ _ _).
Qed.

(** A turn whose request fails, or is answered with no choice, keeps the
    user's message on screen: the current session ends with it (no
    assistant message is added), an error is shown, the loading flag is
    cleared, and the session list is not reloaded. *)
Theorem handleSendMessage_failure_keeps_turn clock content imageFile st0 session um mc :
  resolvedSession api st0 = Some session →
  userMessage File fileToBase64 clock content imageFile = Some um →
  messageContent File fileToBase64 content imageFile = Some mc →
  (∀ response,
     sendMessage api (chatRequest (selectedModel st0) session mc) = Ok response →
     SendMessageResponse.choices response = []) →
  let result :=
    handleSendMessage File fileToBase64 api clock content imageFile st0 in
  currentSession result.1 = Some (withMessage session um)
  ∧ isLoading result.1 = false
  ∧ (∃ shown, error result.1 = Some shown ∧ shown ≠ EmptyString)
  ∧ (CallGetSessions ∉ result.2).
Proof.
  intros Hres Hum Hmc Hfail.
  destruct (handleSendMessage_resolved clock content imageFile st0 session um
              Hres Hum) as (st1 & calls1 & _ & Hnoget & ->).
  simpl. unfold exchange. rewrite Hmc.
  assert (∀ detail, ∃ shown,
            error (catch detail (setError None (setIsLoading true
                     (setCurrentSession (Some (withMessage session um)) st1))))
            = Some shown ∧ shown ≠ EmptyString) as Hshown.
  { intros [d|]; simpl; [|by eexists].
    destruct (decide (d = EmptyString)); by eexists. }
  destruct (sendMessage api _) as [response|detail] eqn:Hsend.
  - rewrite (Hfail response eq_refl). simpl.
    split; [done|]. split; [done|]. split; [apply (Hshown None)|].
    rewrite elem_of_app. intros [?|[[=]|?%elem_of_nil]%elem_of_cons]; done.
  - simpl. split; [done|]. split; [done|]. split; [apply Hshown|].
    rewrite elem_of_app. intros [?|[[=]|?%elem_of_nil]%elem_of_cons]; done.
Qed.

(** A turn answered with a choice ends with the session showing the prior
    messages, the user's message and one assistant message carrying the
    first choice's content; no error is shown, the loading flag is cleared,
    and the session list is the reloaded one when the reload succeeds. *)
Theorem handleSendMessage_success clock content imageFile st0 session um mc
    response choice rest :
  resolvedSession api st0 = Some session →
  userMessage File fileToBase64 clock content imageFile = Some um →
  messageContent File fileToBase64 content imageFile = Some mc →
  sendMessage api (chatRequest (selectedModel st0) session mc) = Ok response →
  SendMessageResponse.choices response = choice :: rest →
  let result :=
    handleSendMessage File fileToBase64 api clock content imageFile st0 in
  ChatSession.messages <$> currentSession result.1
  = Some (ChatSession.messages session
          ++ [ um;
               {| Message.id := pretty (now_reply_id clock + 1)%Z;
                  Message.role := assistant;
                  Message.content := response_content (message choice);
                  Message.timestamp := now_reply clock;
                  Message.imageUrl := None |} ])
  ∧ ChatSession.id <$> currentSession result.1 = Some (ChatSession.id session)
  ∧ isLoading result.1 = false
  ∧ error result.1 = None
  ∧ (∀ reloaded, getSessions api = Some reloaded → sessions result.1 = reloaded).
Proof.
  intros Hres Hum Hmc Hsend Hchoices.
  destruct (handleSendMessage_resolved clock content imageFile st0 session um
              Hres Hum) as (st1 & calls1 & _ & _ & ->).
  simpl. unfold exchange. rewrite Hmc, Hsend, Hchoices. simpl.
  unfold loadSessions. destruct (getSessions api) as [l|]; simpl.
  - rewrite <- app_assoc. split; [done|]. split; [done|]. split; [done|].
    split; [done|]. by intros ? [= <-].
  - rewrite <- app_assoc. split; [done|]. split; [done|]. split; [done|].
    split; [done|]. done.
Qed.

(** When no session can be resolved (none is open and none can be
    created), nothing is sent: an error is shown and there is still no
    current session. *)
Theorem handleSendMessage_unresolved clock content imageFile st0 :
  resolvedSession api st0 = None →
  let result :=
    handleSendMessage File fileToBase64 api clock content imageFile st0 in
  sent result.2 = []
  ∧ currentSession result.1 = None
  ∧ error result.1 = Some "Failed to create chat session"
  ∧ isLoading result.1 = isLoading st0
  ∧ sessions result.1 = sessions st0.
Proof.
  unfold resolvedSession, handleSendMessage.
  destruct (currentSession st0) as [current|] eqn:Hcurrent; [done|].
  unfold handleNewChat.
  destruct (decide (selectedModel st0 = EmptyString)); simpl.
  - intros _. by rewrite Hcurrent.
  - destruct (createSession api _ _); [done|]. simpl. intros _.
    by rewrite Hcurrent.
Qed.

(** A file that cannot be read stops the handler before it shows or sends
    anything: with a session open, the state is left as it was and no
    request is issued. *)
Theorem handleSendMessage_unreadable_file clock content file st0 session :
  currentSession st0 = Some session →
  fileToBase64 file = None →
  handleSendMessage File fileToBase64 api clock content (Some file) st0
  = (st0, []).
Proof.
  intros Hcurrent Hfile. unfold handleSendMessage, userMessage.
  by rewrite Hcurrent, Hfile.
Qed.

(** Every request of a turn is addressed to the model selected in the
    render the handler belongs to, whatever model the session was created
    with. *)
Theorem handleSendMessage_model clock content imageFile st0 request :
  request ∈ sent (handleSendMessage File fileToBase64 api clock content imageFile st0).2 →
  SendMessageRequest.model request = selectedModel st0.
Proof.
  unfold handleSendMessage.
  assert (∀ st session updated,
            request ∈ sent (exchange File fileToBase64 api clock st0 st session
                                     updated content imageFile).2 →
            SendMessageRequest.model request = selectedModel st0) as Hex.
  { intros st session updated. unfold exchange.
    destruct (messageContent _ _ _ _) as [mc|]; simpl; [|by intros ?%elem_of_nil].
    destruct (sendMessage api _) as [response|detail];
      [destruct (SendMessageResponse.choices response)|]; simpl;
      by intros ->%list_elem_of_singleton. }
  destruct (currentSession st0) as [current|].
  - destruct (userMessage _ _ _ _ _) as [um|]; simpl; [|by intros ?%elem_of_nil].
    destruct (exchange _ _ _ _ _ _ _ _ _ _) as [st' calls'] eqn:Hcalls.
    simpl. intros Hin. eapply Hex. by rewrite Hcalls.
  - pose proof (handleNewChat_sent api st0 st0) as Hnew.
    destruct (handleNewChat api st0 st0) as [[st created] calls].
    simpl in *. destruct created as [session|]; simpl.
    + destruct (userMessage _ _ _ _ _) as [um|]; simpl.
      * destruct (exchange _ _ _ _ _ _ _ _ _ _) as [st' calls'] eqn:Hcalls.
        simpl. rewrite sent_app, Hnew. simpl. intros Hin.
        eapply Hex. by rewrite Hcalls.
      * rewrite Hnew. by intros ?%elem_of_nil.
    + rewrite Hnew. by intros ?%elem_of_nil.
Qed.

(** A new chat is numbered after the sessions listed, is put first in the
    list and becomes the current session; the sessions already listed keep
    their order behind it. *)
Theorem handleNewChat_created st0 st created :
  (handleNewChat api st0 st).1.2 = Some created →
  (handleNewChat api st0 st).2
  = [ CallCreateSession (selectedModel st0)
        ("Chat " +:+ pretty (Z.of_nat (length (sessions st0)) + 1)%Z) ]
  ∧ sessions (handleNewChat api st0 st).1.1 = created :: sessions st0
  ∧ currentSession (handleNewChat api st0 st).1.1 = Some created
  ∧ error (handleNewChat api st0 st).1.1 = None
  ∧ selectedModel st0 ≠ EmptyString.
Proof.
  unfold handleNewChat.
  destruct (decide (selectedModel st0 = EmptyString)); [done|].
  destruct (createSession api _ _) as [s|]; [|done].
  simpl. by intros [= ->].
Qed.

End SendFurther.

(** ** Session handlers and the model list *)

Section HandlerProperties.
Import Types App.

(** After a confirmed, successful delete no listed session and no current
    session has the deleted identifier; every other session stays listed,
    in the same order, and the current session is kept unless it is the
    deleted one. *)
Theorem handleDeleteSession_deleted deleteSession sessionId st0 :
  deleteSession sessionId = true →
  let st := AppSessions.handleDeleteSession true deleteSession sessionId st0 in
  sessions st = filter (λ s, ChatSession.id s ≠ sessionId) (sessions st0)
  ∧ (∀ s, s ∈ sessions st → ChatSession.id s ≠ sessionId)
  ∧ (∀ current, currentSession st = Some current →
       ChatSession.id current ≠ sessionId ∧ currentSession st0 = Some current)
  ∧ (∀ current, currentSession st0 = Some current →
       ChatSession.id current ≠ sessionId → currentSession st = Some current).
Proof.
  intros Hdeleted. unfold AppSessions.handleDeleteSession. simpl.
  rewrite Hdeleted.
  destruct (currentSession st0) as [current|] eqn:Hcurrent.
  - destruct (decide (ChatSession.id current = sessionId)) as [Heq|Hne]; simpl.
    + split; [done|]. split; [by intros s [? _]%list_elem_of_filter|].
      split; [done|]. intros c [= <-] ?. done.
    + split; [done|]. split; [by intros s [? _]%list_elem_of_filter|].
      rewrite Hcurrent. split; [by intros c [= <-]|]. done.
  - simpl. split; [done|]. split; [by intros s [? _]%list_elem_of_filter|].
    rewrite Hcurrent. done.
Qed.

(** A delete that the user cancels, or that the backend rejects, leaves the
    session list and the current session as they were. *)
Theorem handleDeleteSession_kept confirm deleteSession sessionId st0 :
  confirm = false ∨ deleteSession sessionId = false →
  let st := AppSessions.handleDeleteSession confirm deleteSession sessionId st0 in
  sessions st = sessions st0
  ∧ currentSession st = currentSession st0
  ∧ selectedModel st = selectedModel st0.
Proof.
  unfold AppSessions.handleDeleteSession.
  destruct confirm; simpl; [|done].
  intros [?| ->]; done.
Qed.

(** After a stored session is opened, the next turn goes to that session
    and to the model it was created with. *)
Theorem handleSelectSession_then_send {File : Type}
    (fileToBase64 : File → option string) (api : Api) getSession sessionId
    session clock content imageFile st0 request :
  getSession sessionId = Some session →
  request ∈ sent (handleSendMessage File fileToBase64 api clock content imageFile
                    (AppSessions.handleSelectSession getSession sessionId st0)).2 →
  SendMessageRequest.model request = ChatSession.modelId session
  ∧ SendMessageRequest.session_id request = Some (ChatSession.id session).
Proof.
  intros Hget. unfold AppSessions.handleSelectSession. rewrite Hget.
  unfold handleSendMessage. simpl.
  destruct (userMessage _ _ _ _ _) as [um|]; simpl; [|by intros ?%elem_of_nil].
  unfold exchange.
  destruct (messageContent _ _ _ _) as [mc|]; simpl; [|by intros ?%elem_of_nil].
  destruct (sendMessage api _) as [response|detail];
    [destruct (SendMessageResponse.choices response)|]; simpl;
    by intros ->%list_elem_of_singleton.
Qed.

(** Opening a session that cannot be loaded changes nothing but the error
    shown. *)
Theorem handleSelectSession_failed getSession sessionId st0 :
  getSession sessionId = None →
  let st := AppSessions.handleSelectSession getSession sessionId st0 in
  currentSession st = currentSession st0
  ∧ selectedModel st = selectedModel st0
  ∧ sessions st = sessions st0
  ∧ error st = Some "Failed to load chat session".
Proof.
  intros Hget. unfold AppSessions.handleSelectSession. by rewrite Hget.
Qed.

Lemma find_Some_elem {A} (p : A → bool) (l : list A) (x : A) :
  List.find p l = Some x → x ∈ l ∧ p x = true.
Proof.
  induction l as [|y l IH]; simpl; [done|].
  destruct (p y) eqn:Hy.
  - intros [= <-]. split; [apply list_elem_of_here|done].
  - intros [Hin Hp]%IH. split; [by apply list_elem_of_further|done].
Qed.

Lemma find_None_elem {A} (p : A → bool) (l : list A) (x : A) :
  List.find p l = None → x ∈ l → p x = false.
Proof.
  induction l as [|y l IH]; simpl; [by intros _ ?%elem_of_nil|].
  destruct (p y) eqn:Hy; [done|].
  intros Hnone [->|Hin]%elem_of_cons; [done|by apply IH].
Qed.

(** The image button is offered only for a model that is in the list under
    the selected identifier and is flagged as supporting vision; with no
    such identifier in the list it is not offered. *)
Theorem currentModelSupportsImages_flagged st :
  (AppCatalog.currentModelSupportsImages st = true →
   ∃ m, m ∈ AppCatalog.models st
     ∧ AppCatalog.AIModel.id m = selectedModel (AppCatalog.app st)
     ∧ AppCatalog.AIModel.supports_vision m = Some true)
  ∧ ((∀ m, m ∈ AppCatalog.models st →
        AppCatalog.AIModel.id m ≠ selectedModel (AppCatalog.app st)) →
     AppCatalog.currentModelSupportsImages st = false).
Proof.
  unfold AppCatalog.currentModelSupportsImages. split.
  - destruct (List.find _ _) as [m|] eqn:Hfind; [|done].
    apply find_Some_elem in Hfind as [Hin Hid%bool_decide_eq_true].
    intros Hflag. exists m. split; [done|]. split; [done|].
    by destruct (AppCatalog.AIModel.supports_vision m) as [[]|].
  - intros Habsent. destruct (List.find _ _) as [m|] eqn:Hfind; [|done].
    apply find_Some_elem in Hfind as [Hin Hid%bool_decide_eq_true].
    by destruct (Habsent m Hin).
Qed.

(** The models are loaded by the mount effect, whose [loadModels] reads the
    empty selection of the first render.  When the request answers with a
    non-empty list the first model becomes the selected one, whatever was
    selected while the request was pending, and the image button follows
    that model's flag.  An empty list leaves the selection of that moment;
    a failed load leaves the list and the selection and shows an error.
    The other cells are as they were when the request settled. *)
Theorem loadModels_selection getModels (pending : AppCatalog.State → AppCatalog.State) :
  let settled :=
    pending (AppCatalog.write (setError None) AppCatalog.initial) in
  let st := AppCatalog.loadModels getModels pending AppCatalog.initial in
  (∀ first others,
     getModels = Some (first :: others) →
     selectedModel (AppCatalog.app st) = AppCatalog.AIModel.id first
     ∧ AppCatalog.models st = first :: others
     ∧ AppCatalog.currentModelSupportsImages st
       = default false (AppCatalog.AIModel.supports_vision first)
     ∧ error (AppCatalog.app st) = error (AppCatalog.app settled))
  ∧ (getModels = Some [] →
     st = AppCatalog.setModels [] settled)
  ∧ (getModels = None →
     AppCatalog.models st = AppCatalog.models settled
     ∧ selectedModel (AppCatalog.app st) = selectedModel (AppCatalog.app settled)
     ∧ error (AppCatalog.app st)
       = Some "Failed to load AI models. Please check your connection.")
  ∧ sessions (AppCatalog.app st) = sessions (AppCatalog.app settled)
  ∧ currentSession (AppCatalog.app st) = currentSession (AppCatalog.app settled)
  ∧ isLoading (AppCatalog.app st) = isLoading (AppCatalog.app settled).
Proof.
  unfold AppCatalog.loadModels. cbv zeta.
  split; [|split; [|split]].
  - intros first others ->. simpl.
    split; [done|]. split; [done|]. split; [|done].
    unfold AppCatalog.currentModelSupportsImages. simpl.
    by rewrite bool_decide_eq_true_2.
  - by intros ->.
  - by intros ->.
  - by destruct getModels as [[|first others]|].
Qed.

(** A session opened while the models are loading selects its model; the
    answer to the models request then replaces that selection by the first
    model of the list. *)
Lemma loadModels_overwrites_selection :
  let opened :=
    AppCatalog.write
      (AppSessions.handleSelectSession (λ _, Some MoreSamples.other_session) "s2") in
  selectedModel (AppCatalog.app
                   (opened (AppCatalog.write (setError None) AppCatalog.initial)))
  = "qwen/qwen-2-vl-7b-instruct:free"
  ∧ selectedModel
      (AppCatalog.app
         (AppCatalog.loadModels
            (Some [MoreSamples.text_only; MoreSamples.vision]) opened
            AppCatalog.initial))
    = "m1".
Proof. split; reflexivity. Qed.

Lemma find_first_with_id models modelId m :
  List.find (λ x, bool_decide (AppCatalog.AIModel.id x = modelId)) models = Some m
  ↔ AppCatalog.first_with_id models modelId m.
Proof.
  unfold AppCatalog.first_with_id. split.
  - induction models as [|y models IH]; simpl; [done|].
    destruct (bool_decide_reflect (AppCatalog.AIModel.id y = modelId)) as [Hy|Hy].
    + intros [= <-]. by exists [], models.
    + intros (before & after & -> & Hid & Hbefore)%IH.
      exists (y :: before), after. split; [done|]. split; [done|].
      by constructor.
  - intros (before & after & -> & Hid & Hbefore).
    induction Hbefore as [|y before Hy _ IH]; simpl.
    + by rewrite bool_decide_eq_true_2.
    + by rewrite bool_decide_eq_false_2.
Qed.

Lemma find_no_model_with_id models modelId :
  List.find (λ x, bool_decide (AppCatalog.AIModel.id x = modelId)) models = None
  ↔ Forall (λ x, AppCatalog.AIModel.id x ≠ modelId) models.
Proof.
  induction models as [|y models IH]; simpl; [done|].
  destruct (bool_decide_reflect (AppCatalog.AIModel.id y = modelId)) as [Hy|Hy].
  - split; [done|]. by intros [? _]%Forall_cons.
  - rewrite IH, Forall_cons. tauto.
Qed.

(** The name a session's messages are rendered with: the display name of
    the first listed model with the session's model identifier, or that
    identifier itself when the name is empty or no such model is listed. *)
Lemma modelName_spec models session shown :
  AppCatalog.modelName models session = shown
  ↔ (∃ m, AppCatalog.first_with_id models (ChatSession.modelId session) m
        ∧ AppCatalog.AIModel.name m ≠ EmptyString
        ∧ shown = AppCatalog.AIModel.name m)
    ∨ (∃ m, AppCatalog.first_with_id models (ChatSession.modelId session) m
          ∧ AppCatalog.AIModel.name m = EmptyString
          ∧ shown = ChatSession.modelId session)
    ∨ (Forall (λ x, AppCatalog.AIModel.id x ≠ ChatSession.modelId session) models
       ∧ shown = ChatSession.modelId session).
Proof.
  unfold AppCatalog.modelName. split.
  - intros <-.
    destruct (List.find _ _) as [m|] eqn:Hfind.
    + apply find_first_with_id in Hfind.
      destruct (decide (AppCatalog.AIModel.name m = EmptyString)).
      * right; left. by exists m.
      * left. by exists m.
    + apply find_no_model_with_id in Hfind. by right; right.
  - intros [(m & Hm & Hname & ->)|[(m & Hm & Hname & ->)|[Hnone ->]]].
    + apply find_first_with_id in Hm. rewrite Hm. by rewrite decide_False.
    + apply find_first_with_id in Hm. rewrite Hm. by rewrite decide_True.
    + apply find_no_model_with_id in Hnone. by rewrite Hnone.
Qed.

(** A model name is shown on assistant messages only, and only when it is
    not empty: it is the display name of the first listed model that has
    the session's model identifier, or that identifier itself when the
    display name is empty or no listed model has it.  Messages of the user
    and of the system show none. *)
Theorem shownModelName_assistant models session message shown :
  ChatMessage.shownModelName message
    (AppCatalog.modelNameProp models session message) = Some shown
  ↔ Message.role message = assistant
    ∧ shown ≠ EmptyString
    ∧ ((∃ m, AppCatalog.first_with_id models (ChatSession.modelId session) m
          ∧ AppCatalog.AIModel.name m ≠ EmptyString
          ∧ shown = AppCatalog.AIModel.name m)
       ∨ (∃ m, AppCatalog.first_with_id models (ChatSession.modelId session) m
            ∧ AppCatalog.AIModel.name m = EmptyString
            ∧ shown = ChatSession.modelId session)
       ∨ (Forall (λ x, AppCatalog.AIModel.id x ≠ ChatSession.modelId session)
                 models
          ∧ shown = ChatSession.modelId session)).
Proof.
  rewrite <- modelName_spec.
  unfold ChatMessage.shownModelName, ChatMessage.isUser,
    AppCatalog.modelNameProp.
  destruct (Message.role message); simpl.
  - split; [done|by intros [[=] _]].
  - destruct (decide (AppCatalog.modelName models session = EmptyString))
      as [Heq|Hne].
    + split; [done|]. intros (_ & ? & <-). done.
    + split; [by intros [= <-]|]. by intros (_ & _ & ->).
  - split; [done|by intros [[=] _]].
Qed.

End HandlerProperties.

(** ** The catalog fragments, further *)

Section CatalogFurther.
Import ModelCatalog.

(** The filter never adds or reorders entries, and it is at least as
    strict as the shortened form: its result is a sublist of the shortened
    filter's result, which is a sublist of the upstream list. *)
Theorem free_models_sublist all_models :
  free_models all_models `sublist_of` free_models_overview all_models
  ∧ free_models_overview all_models `sublist_of` all_models.
Proof.
  split; [|apply sublist_filter].
  unfold free_models, free_models_overview.
  induction all_models as [|m l IH]; [done|].
  rewrite !filter_cons.
  destruct (decide (get (prompt (get (pricing m) no_pricing)) "1" = "0"
                    ∧ get (completion (get (pricing m) no_pricing)) "1" = "0"))
    as [[Hp Hc]|Hno].
  - rewrite decide_True by done. by apply sublist_skip.
  - destruct (decide (get (prompt (get (pricing m) no_pricing)) "1" = "0"));
      [by apply sublist_cons|done].
Qed.

(** The subscripted form of the filter returns what the shortened form
    returns when every entry declares a prompt price, and otherwise raises
    [KeyError] for the key some entry lacks. *)
Theorem free_models_indexed_outcome all_models :
  match free_models_indexed all_models with
  | Ok retained =>
      Forall (λ m, ∃ p price, pricing m = Some p ∧ prompt p = Some price)
             all_models
      ∧ retained = free_models_overview all_models
  | Err (KeyError key) =>
      ∃ m, m ∈ all_models
        ∧ ((pricing m = None ∧ key = "pricing")
           ∨ (∃ p, pricing m = Some p ∧ prompt p = None ∧ key = "prompt"))
  end.
Proof.
  induction all_models as [|m l IH]; simpl; [by split|].
  destruct (pricing m) as [p|] eqn:Hp; simpl.
  - destruct (prompt p) as [price|] eqn:Hprice; simpl.
    + destruct (free_models_indexed l) as [rest|[key]]; simpl.
      * destruct IH as [Hall ->]. split.
        -- constructor; [by eexists _, _|done].
        -- unfold free_models_overview. rewrite filter_cons, Hp. simpl.
           rewrite Hprice. simpl. by destruct (decide (price = "0")).
      * destruct IH as (m' & Hin & Hkey). exists m'.
        split; [by apply list_elem_of_further|done].
    + exists m. split; [apply list_elem_of_here|]. right. by exists p.
  - exists m. split; [apply list_elem_of_here|]. by left.
Qed.

(** Marking touches the name only, so it can be done before or after the
    filter: the marked free entries are the free marked entries. *)
Theorem mark_vision_commutes_with_filter all_models :
  free_models ((λ m, (mark_vision m).1) <$> all_models)
  = (λ m, (mark_vision m).1) <$> free_models all_models.
Proof.
  unfold free_models.
  induction all_models as [|m l IH]; [done|].
  rewrite fmap_cons, !filter_cons, IH.
  assert (pricing (mark_vision m).1 = pricing m) as ->.
  { unfold mark_vision. by destruct (_check_vision_support m). }
  by destruct (decide _).
Qed.

(** Marking is not idempotent: an entry that declares ["image"] gets one
    more marker each time it is marked, while an entry that does not is
    left as it is. *)
Theorem mark_vision_again model :
  (_check_vision_support model = true →
   name (mark_vision (mark_vision model).1).1
   = vision_marker +:+ vision_marker +:+ name model)
  ∧ (_check_vision_support model = false →
     mark_vision (mark_vision model).1 = mark_vision model
     ∧ (mark_vision model).1 = model).
Proof.
  split; intros Hvision.
  - unfold mark_vision at 2. rewrite Hvision. simpl.
    unfold mark_vision.
    assert (_check_vision_support
              {| id := id model; name := vision_marker +:+ name model;
                 description := description model;
                 context_length := context_length model;
                 pricing := pricing model;
                 architecture := architecture model |} = true) as ->; [|done].
    by rewrite <- Hvision.
  - unfold mark_vision. rewrite Hvision. simpl. by rewrite Hvision.
Qed.

End CatalogFurther.

(** ** The further properties on the sample data *)

Section FurtherWitnesses.
Import Types App.

Lemma transformMessage_drops_other_keys_witness :
  ("session_id" ∉ ["id"; "role"; "content"; "timestamp"; "imageUrl"])
  ∧ ∃ out,
      ApiService.transformMessage Samples.server_message = Ok out
      ∧ Js.get Samples.server_message "session_id" = Ok (Js.VStr "s1")
      ∧ Js.get out "session_id" = Ok Js.VUndefined.
Proof.
  assert ("session_id" ∉ ["id"; "role"; "content"; "timestamp"; "imageUrl"])
    as Hkey.
  { apply (bool_decide_unpack _). vm_compute. exact I. }
  split; [exact Hkey|].
  eexists. split; [reflexivity|]. split; [reflexivity|].
  apply (transformMessage_drops_other_keys Samples.server_message _ "session_id");
    [reflexivity|exact Hkey].
Defined.

Lemma transformSession_succeeds_iff_witness :
  let messages := Js.VArr (Js.VObj <$> [Samples.server_message_props]) in
  Js.get (Js.VObj Samples.server_session) "messages" = Ok messages
  ∧ ((∃ out, ApiService.transformSession (Js.VObj Samples.server_session) = Ok out)
     ↔ Js.truthy messages = false
       ∨ ∃ msgs, messages = Js.VArr msgs
           ∧ Forall (λ m, m ≠ Js.VUndefined ∧ m ≠ Js.VNull) msgs).
Proof.
  cbv zeta. split; [reflexivity|].
  apply (transformSession_succeeds_iff (Js.VObj Samples.server_session)
           (Js.VArr (Js.VObj <$> [Samples.server_message_props]))).
  reflexivity.
Defined.

Lemma messageCount_transformSession_witness :
  ∃ out,
    ApiService.transformSession (Js.VObj Samples.server_session) = Ok out
    ∧ ApiService.messageCount out = Ok (Js.VNum 1).
Proof.
  eexists. split; [reflexivity|].
  exact (messageCount_transformSession (Js.VObj Samples.server_session)
           (Js.VArr (Js.VObj <$> [Samples.server_message_props])) _
           eq_refl eq_refl).
Defined.

Lemma blank_text_is_not_sent_witness :
  let st := ChatInput.handleChange "   " (@ChatInput.initial string) in
  Text.blank (ChatInput.message st) = true
  ∧ ChatInput.imageFile st = None
  ∧ ChatInput.handleSubmit st = (None, st)
  ∧ ChatInput.submitDisabled false st = true.
Proof.
  cbv zeta. split; [reflexivity|]. split; [reflexivity|].
  apply (blank_text_is_not_sent
           (ChatInput.handleChange "   " (@ChatInput.initial string)));
    reflexivity.
Defined.

Lemma handleSendMessage_failure_keeps_turn_witness :
  let result :=
    handleSendMessage string Some MoreSamples.failing_api Samples.clock
      "Hello" None Samples.state in
  ∃ um,
    userMessage string Some Samples.clock "Hello" None = Some um
    ∧ currentSession result.1 = Some (withMessage Samples.session um)
    ∧ isLoading result.1 = false
    ∧ (∃ shown, error result.1 = Some shown ∧ shown ≠ EmptyString)
    ∧ (CallGetSessions ∉ result.2).
Proof.
  cbv zeta. eexists. split; [reflexivity|].
  apply (handleSendMessage_failure_keeps_turn (File := string) Some
           MoreSamples.failing_api Samples.clock "Hello" None Samples.state
           Samples.session _ (ContentString "Hello"));
    [reflexivity|reflexivity|reflexivity|].
  intros response Hsend. discriminate Hsend.
Defined.

Lemma handleSendMessage_success_witness :
  let result :=
    handleSendMessage string Some Samples.api Samples.clock
      "Hello" None Samples.state in
  ∃ um,
    userMessage string Some Samples.clock "Hello" None = Some um
    ∧ ChatSession.messages <$> currentSession result.1
      = Some (ChatSession.messages Samples.session
              ++ [ um;
                   {| Message.id := pretty (now_reply_id Samples.clock + 1)%Z;
                      Message.role := assistant;
                      Message.content := "A cat.";
                      Message.timestamp := now_reply Samples.clock;
                      Message.imageUrl := None |} ])
    ∧ ChatSession.id <$> currentSession result.1
      = Some (ChatSession.id Samples.session)
    ∧ isLoading result.1 = false
    ∧ error result.1 = None
    ∧ (∀ reloaded, getSessions Samples.api = Some reloaded →
                   sessions result.1 = reloaded).
Proof.
  cbv zeta.
  pose proof (handleSendMessage_success (File := string) Some Samples.api
                Samples.clock "Hello" None Samples.state Samples.session _
                (ContentString "Hello") _ _ _
                eq_refl eq_refl eq_refl eq_refl eq_refl) as Hsuccess.
  eexists. split; [reflexivity|]. exact Hsuccess.
Defined.

Lemma handleSendMessage_unresolved_witness :
  let result :=
    handleSendMessage string Some MoreSamples.failing_api Samples.clock
      "Hello" None MoreSamples.no_session in
  resolvedSession MoreSamples.failing_api MoreSamples.no_session = None
  ∧ sent result.2 = []
  ∧ currentSession result.1 = None
  ∧ error result.1 = Some "Failed to create chat session"
  ∧ isLoading result.1 = isLoading MoreSamples.no_session
  ∧ sessions result.1 = sessions MoreSamples.no_session.
Proof.
  cbv zeta. split; [reflexivity|].
  apply (handleSendMessage_unresolved (File := string) Some
           MoreSamples.failing_api Samples.clock "Hello" None
           MoreSamples.no_session).
  reflexivity.
Defined.

Lemma handleSendMessage_unreadable_file_witness :
  handleSendMessage string (λ _, None) Samples.api Samples.clock
    "What is in this image?" (Some Samples.image) Samples.state
  = (Samples.state, []).
Proof.
  apply (handleSendMessage_unreadable_file (File := string) (λ _, None)
           Samples.api Samples.clock "What is in this image?" Samples.image
           Samples.state Samples.session);
    reflexivity.
Defined.

Lemma handleSendMessage_model_witness :
  ∃ request,
    request ∈ sent (handleSendMessage string Some Samples.api Samples.clock
                      "Hello" None MoreSamples.two_sessions).2
    ∧ SendMessageRequest.model request = "m1".
Proof.
  eexists. split; [apply list_elem_of_here|].
  apply (handleSendMessage_model (File := string) Some Samples.api
           Samples.clock "Hello" None MoreSamples.two_sessions).
  apply list_elem_of_here.
Defined.

Lemma handleSendMessage_names_session_witness :
  ∃ request session,
    request ∈ sent (handleSendMessage string Some Samples.api Samples.clock
                      "Hello" None MoreSamples.two_sessions).2
    ∧ resolvedSession Samples.api MoreSamples.two_sessions = Some session
    ∧ SendMessageRequest.session_id request = Some (ChatSession.id session).
Proof.
  eexists.
  destruct (handleSendMessage_names_session (File := string) Some Samples.api
              Samples.clock "Hello" None MoreSamples.two_sessions _
              (list_elem_of_here _ _)) as (session & Hres & Hid).
  exists session. split; [apply list_elem_of_here|]. split; [exact Hres|exact Hid].
Defined.

Lemma handleNewChat_created_witness :
  let st0 := setCurrentSession None MoreSamples.two_sessions in
  (handleNewChat Samples.api st0 st0).1.2 = Some Samples.session
  ∧ (handleNewChat Samples.api st0 st0).2 = [CallCreateSession "m1" "Chat 3"]
  ∧ sessions (handleNewChat Samples.api st0 st0).1.1
    = Samples.session :: sessions st0.
Proof.
  cbv zeta. split; [reflexivity|].
  destruct (handleNewChat_created Samples.api
              (setCurrentSession None MoreSamples.two_sessions)
              (setCurrentSession None MoreSamples.two_sessions)
              Samples.session eq_refl) as (Hcalls & Hsessions & _).
  split; [exact Hcalls|exact Hsessions].
Defined.

Lemma handleDeleteSession_deleted_witness :
  let st :=
    AppSessions.handleDeleteSession true (λ _, true) "s1"
      MoreSamples.two_sessions in
  sessions st = [MoreSamples.other_session]
  ∧ currentSession st = None.
Proof.
  destruct (handleDeleteSession_deleted (λ _, true) "s1"
              MoreSamples.two_sessions eq_refl) as (Hsessions & _).
  split; [exact Hsessions|reflexivity].
Defined.

Lemma handleDeleteSession_kept_witness :
  let st :=
    AppSessions.handleDeleteSession true (λ _, false) "s1"
      MoreSamples.two_sessions in
  sessions st = sessions MoreSamples.two_sessions
  ∧ currentSession st = currentSession MoreSamples.two_sessions
  ∧ selectedModel st = selectedModel MoreSamples.two_sessions.
Proof.
  apply (handleDeleteSession_kept true (λ _, false) "s1"
           MoreSamples.two_sessions).
  right. reflexivity.
Defined.

Lemma handleSelectSession_then_send_witness :
  let getSession := λ _ : string, Some MoreSamples.other_session in
  ∃ request,
    request ∈ sent (handleSendMessage string Some Samples.api Samples.clock
                      "Hello" None
                      (AppSessions.handleSelectSession getSession "s2"
                         MoreSamples.two_sessions)).2
    ∧ SendMessageRequest.model request = "qwen/qwen-2-vl-7b-instruct:free"
    ∧ SendMessageRequest.session_id request = Some "s2".
Proof.
  cbv zeta. eexists. split; [apply list_elem_of_here|].
  apply (handleSelectSession_then_send (File := string) Some Samples.api
           (λ _, Some MoreSamples.other_session) "s2" MoreSamples.other_session
           Samples.clock "Hello" None MoreSamples.two_sessions);
    [reflexivity|apply list_elem_of_here].
Defined.

End FurtherWitnesses.
